(** * CSV ingestion pipeline of the Personal Financial Advisor

    A shallow embedding of the import path of the application and of
    what reads its store:
    - [utils/parseCSV.ts]: the decoder, identity assignment and the
      conversion to the stored shape;
    - [utils/schemaValidation.ts]: header check, sanitizer, validator and
      commit loop (the first [validateRows] of the repository), and the
      earlier copy of the validator (module [Legacy]);
    - [services/idb/transactionsRepo.ts]: the IndexedDB gateway;
    - [components/UploadZone.tsx]: [handleParse], decode then validate;
    - [features/csv/components/UploadZone.tsx]: [validateHeaders];
    - [components/dbTableDisplay.tsx]: the pages of the table.

    JavaScript strings are modelled by [string], one [ascii] per UTF-16
    code unit below 256.  Numbers are IEEE binary64 values, modelled by
    exact rationals that are rounded to the nearest representable value
    after every operation the code performs. *)

From Stdlib Require Import ZArith QArith Ascii String.
From stdpp Require Import gmap strings list fin_maps sorting.

Local Close Scope Q_scope.
Local Open Scope string_scope.
Local Open Scope Z_scope.

(** ** JavaScript strings *)

Module JSString.

Definition code (c : ascii) : Z := Z.of_N (N_of_ascii c).

(** WhiteSpace and LineTerminator code units below 256: TAB, LF, VT, FF,
    CR, SP and NBSP.  [String.prototype.trim] and [StringToNumber] strip
    the same set. *)
Definition is_ws (c : ascii) : bool :=
  let n := code c in
  ((9 <=? n) && (n <=? 13)) || (n =? 32) || (n =? 160).

Definition is_digit (c : ascii) : bool :=
  let n := code c in (48 <=? n) && (n <=? 57).

Definition digit_val (c : ascii) : Z := code c - 48.

Fixpoint trimStart (s : string) : string :=
  match s with
  | String c r => if is_ws c then trimStart r else s
  | EmptyString => EmptyString
  end.

Fixpoint trimEnd (s : string) : string :=
  match s with
  | String c r =>
      match trimEnd r with
      | EmptyString => if is_ws c then EmptyString else String c EmptyString
      | r' => String c r'
      end
  | EmptyString => EmptyString
  end.

(** [s.trim()] *)
Definition trim (s : string) : string := trimEnd (trimStart s).

(** [s.split(sep)] for a separator of one code unit. *)
Fixpoint split (sep : ascii) (s : string) : list string :=
  match s with
  | EmptyString => [EmptyString]
  | String c r =>
      if Ascii.eqb c sep then EmptyString :: split sep r
      else match split sep r with
           | h :: t => String c h :: t
           | [] => [String c EmptyString]
           end
  end.

(** Longest prefix of decimal digits, and the rest. *)
Fixpoint span_digits (s : string) : string * string :=
  match s with
  | String c r =>
      if is_digit c
      then let '(d, rest) := span_digits r in (String c d, rest)
      else (EmptyString, s)
  | EmptyString => (EmptyString, EmptyString)
  end.

(** Value of a string of decimal digits, most significant first. *)
Fixpoint digits_val (acc : Z) (s : string) : Z :=
  match s with
  | String c r => digits_val (10 * acc + digit_val c) r
  | EmptyString => acc
  end.

(** The [w] lowest decimal digits of [n], zero padded. *)
Fixpoint pad (w : nat) (n : Z) : string :=
  match w with
  | O => EmptyString
  | S w' => pad w' (n / 10) +:+ String (ascii_of_N (Z.to_N (48 + n mod 10))) EmptyString
  end.

End JSString.
Import JSString.

(** ** JavaScript numbers *)

Module JSNumber.

(** A Number is NaN, an infinity, or a finite binary64 value held as a
    reduced rational.  The sign of zero is not observable by the code
    modelled here and is not kept. *)
Inductive JSNum : Type :=
| NaN
| Inf (neg : bool)
| Fin (q : Q).

Definition isNaN (x : JSNum) : bool :=
  match x with NaN => true | _ => false end.

Definition isFinite (x : JSNum) : bool :=
  match x with Fin _ => true | _ => false end.

(** [floor (log2 (n / d))] for positive [n] and [d]. *)
Definition log2_ratio (n d : Z) : Z :=
  let e0 := Z.log2 n - Z.log2 d in
  let ge := if 0 <=? e0 then d * 2 ^ e0 <=? n else d <=? n * 2 ^ (- e0) in
  if ge then e0 else e0 - 1.

(** Round a positive rational [n / d] to the nearest binary64 value,
    ties to even; values that round to 2^1024 or beyond are infinite. *)
Definition round_pos (n d : Z) : option Q :=
  let e := log2_ratio n d in
  let s := Z.max e (-1022) - 52 in
  let '(num, den) := if 0 <=? s then (n, d * 2 ^ s) else (n * 2 ^ (- s), d) in
  let k := num / den in
  let r := num mod den in
  let k' := if (den <? 2 * r) || ((den =? 2 * r) && Z.odd k) then k + 1 else k in
  if 0 <=? s
  then (if 2 ^ 1024 <=? k' * 2 ^ s then None else Some (Qred (Qmake (k' * 2 ^ s) 1)))
  else Some (Qred (Qmake k' (Z.to_pos (2 ^ (- s))))).

Definition round64 (q : Q) : JSNum :=
  match Qnum q with
  | Z0 => Fin (Qmake 0 1)
  | Zpos n =>
      match round_pos (Zpos n) (Zpos (Qden q)) with
      | Some r => Fin r
      | None => Inf false
      end
  | Zneg n =>
      match round_pos (Zpos n) (Zpos (Qden q)) with
      | Some r => Fin (Qopp r)
      | None => Inf true
      end
  end.

Definition of_Z (z : Z) : JSNum := round64 (Qmake z 1).

(** [x - y] *)
Definition sub (x y : JSNum) : JSNum :=
  match x, y with
  | NaN, _ | _, NaN => NaN
  | Inf a, Inf b => if Bool.eqb a b then NaN else Inf a
  | Inf a, Fin _ => Inf a
  | Fin _, Inf b => Inf (negb b)
  | Fin p, Fin q => round64 (Qminus p q)
  end.

Definition neg (x : JSNum) : JSNum :=
  match x with
  | NaN => NaN
  | Inf b => Inf (negb b)
  | Fin q => Fin (Qopp q)
  end.

(** [ToIntegerOrInfinity] on a finite value: truncation toward zero. *)
Definition trunc (q : Q) : Z := Z.quot (Qnum q) (Zpos (Qden q)).

(** The mathematical value [m * 10^e] as a Number. *)
Definition of_decimal (m e : Z) : JSNum :=
  if 0 <=? e then round64 (Qmake (m * 10 ^ e) 1)
  else round64 (Qmake m (Z.to_pos (10 ^ (- e)))).

(** *** StringToNumber *)

Definition is_exp_indicator (c : ascii) : bool :=
  Ascii.eqb c "e" || Ascii.eqb c "E".

(** SignedInteger, which has to reach the end of the literal. *)
Definition parse_exponent (s : string) : option Z :=
  let '(sgn, body) :=
    match s with
    | String c r =>
        if Ascii.eqb c "+" then (1, r)
        else if Ascii.eqb c "-" then (-1, r)
        else (1, s)
    | EmptyString => (1, s)
    end in
  match span_digits body with
  | (String _ _ as d, EmptyString) => Some (sgn * digits_val 0 d)
  | _ => None
  end.

(** ExponentPart_opt at the end of a literal. *)
Definition parse_exponent_opt (s : string) : option Z :=
  match s with
  | EmptyString => Some 0
  | String c r => if is_exp_indicator c then parse_exponent r else None
  end.

(** StrUnsignedDecimalLiteral other than [Infinity]:
    [D+ . D* Exp?], [. D+ Exp?] or [D+ Exp?]. *)
Definition parse_unsigned_decimal (s : string) : option (Z * Z) :=
  let '(ip, r1) := span_digits s in
  let '(fp, r2) :=
    match r1 with
    | String c r => if Ascii.eqb c "." then span_digits r else (EmptyString, r1)
    | EmptyString => (EmptyString, r1)
    end in
  match ip, fp with
  | EmptyString, EmptyString => None
  | _, _ =>
      match parse_exponent_opt r2 with
      | Some e => Some (digits_val 0 (ip +:+ fp), e - Z.of_nat (String.length fp))
      | None => None
      end
  end.

Definition parse_unsigned (s : string) : JSNum :=
  if String.eqb s "Infinity" then Inf false
  else match parse_unsigned_decimal s with
       | Some (m, e) => of_decimal m e
       | None => NaN
       end.

(** Digits of a NonDecimalIntegerLiteral. *)
Definition radix_digit (radix : Z) (c : ascii) : option Z :=
  let n := code c in
  let v := if (48 <=? n) && (n <=? 57) then n - 48
           else if (97 <=? n) && (n <=? 102) then n - 87
           else if (65 <=? n) && (n <=? 70) then n - 55
           else radix in
  if v <? radix then Some v else None.

Fixpoint radix_val (radix acc : Z) (s : string) : option Z :=
  match s with
  | EmptyString => Some acc
  | String c r =>
      match radix_digit radix c with
      | Some v => radix_val radix (radix * acc + v) r
      | None => None
      end
  end.

Definition radix_of_prefix (c : ascii) : option Z :=
  if Ascii.eqb c "x" || Ascii.eqb c "X" then Some 16
  else if Ascii.eqb c "o" || Ascii.eqb c "O" then Some 8
  else if Ascii.eqb c "b" || Ascii.eqb c "B" then Some 2
  else None.

(** NonDecimalIntegerLiteral: [0x], [0o] or [0b] and at least one digit;
    [None] when the literal has no such prefix. *)
Definition parse_non_decimal (s : string) : option JSNum :=
  match s with
  | String z (String p body) =>
      if Ascii.eqb z "0" then
        match radix_of_prefix p with
        | Some radix =>
            Some match body with
                 | EmptyString => NaN
                 | _ => match radix_val radix 0 body with
                        | Some v => of_Z v
                        | None => NaN
                        end
                 end
        | None => None
        end
      else None
  | _ => None
  end.

(** StrNumericLiteral *)
Definition parse_numeric (s : string) : JSNum :=
  match parse_non_decimal s with
  | Some x => x
  | None =>
      match s with
      | String c r =>
          if Ascii.eqb c "+" then parse_unsigned r
          else if Ascii.eqb c "-" then neg (parse_unsigned r)
          else parse_unsigned s
      | EmptyString => NaN
      end
  end.

(** [Number(s)] and unary [+s] on a string. *)
Definition Number (s : string) : JSNum :=
  match trim s with
  | EmptyString => Fin (Qmake 0 1)
  | t => parse_numeric t
  end.

(** Unary [+] on an array element that may be [undefined]. *)
Definition to_number (v : option string) : JSNum :=
  match v with
  | Some s => Number s
  | None => NaN
  end.

End JSNumber.
Import JSNumber.

(** ** The host environment

    What the browser supplies and the repository does not define: the
    identifier generator of the [nanoid] package, the local time zone, and
    the engine's own heuristics for date strings that are not in the
    date-only ISO format. *)

Record Host : Type := {
  (** the [n]-th identifier handed out by [nanoid()] *)
  nanoid_at : nat -> string;
  (** offset in milliseconds of local time from UTC, at local time [t] *)
  LocalTZA : Z -> Z;
  (** [Date.parse] on a string outside the date-only ISO format *)
  Date_parse_impl : string -> option Z
}.

(** ** JavaScript dates *)

Module JSDate.

Definition msPerDay : Z := 86400000.

Definition DayFromYear (y : Z) : Z :=
  365 * (y - 1970) + (y - 1969) / 4 - (y - 1901) / 100 + (y - 1601) / 400.

Definition InLeapYear (y : Z) : bool :=
  (y mod 4 =? 0) && (negb (y mod 100 =? 0) || (y mod 400 =? 0)).

(** Day within the year of the first day of month [mn], [0 <= mn < 12]. *)
Definition DayWithinYear (leap : bool) (mn : Z) : Z :=
  let l := if leap then 1 else 0 in
  match mn with
  | 0 => 0 | 1 => 31 | 2 => 59 + l | 3 => 90 + l | 4 => 120 + l
  | 5 => 151 + l | 6 => 181 + l | 7 => 212 + l | 8 => 243 + l
  | 9 => 273 + l | 10 => 304 + l | _ => 334 + l
  end.

Definition DaysInMonth (leap : bool) (mn : Z) : Z :=
  match mn with
  | 1 => if leap then 29 else 28
  | 3 | 5 | 8 | 10 => 30
  | _ => 31
  end.

(** A time value is [Some t], [t] in milliseconds since the epoch, or
    [None] for NaN (an invalid date).  Day numbers are computed on exact
    integers: they agree with the arithmetic of the engine wherever the
    result is a date in range, and [TimeClip] rejects the others. *)
Definition MakeDay (year month date : JSNum) : option Z :=
  match year, month, date with
  | Fin year, Fin month, Fin date =>
      let y := trunc year in
      let m := trunc month in
      let dt := trunc date in
      let ym := y + m / 12 in
      let mn := m mod 12 in
      Some (DayFromYear ym + DayWithinYear (InLeapYear ym) mn + dt - 1)
  | _, _, _ => None
  end.

Definition MakeDate (day : option Z) (time : Z) : option Z :=
  match day with
  | Some d => Some (d * msPerDay + time)
  | None => None
  end.

Definition MakeFullYear (y : JSNum) : JSNum :=
  match y with
  | Fin q => let yi := trunc q in
             if (0 <=? yi) && (yi <=? 99) then of_Z (1900 + yi) else y
  | _ => y
  end.

Definition TimeClip (t : option Z) : option Z :=
  match t with
  | Some t => if 8640000000000000 <? Z.abs t then None else Some t
  | None => None
  end.

Definition UTC (h : Host) (t : option Z) : option Z :=
  match t with
  | Some t => Some (t - LocalTZA h t)
  | None => None
  end.

(** [new Date(year, month, date)]: local midnight of that day. *)
Definition Date_of_components (h : Host) (year month date : JSNum) : option Z :=
  let yr := MakeFullYear year in
  TimeClip (UTC h (MakeDate (MakeDay yr month date) 0)).

(** Year, month (1 to 12) and day of month of a day number. *)
Definition civil_of_day (day : Z) : Z * Z * Z :=
  let z := day + 719468 in
  let era := z / 146097 in
  let doe := z - era * 146097 in
  let yoe := (doe - doe / 1460 + doe / 36524 - doe / 146096) / 365 in
  let doy := doe - (365 * yoe + yoe / 4 - yoe / 100) in
  let mp := (5 * doy + 2) / 153 in
  let d := doy - (153 * mp + 2) / 5 + 1 in
  let m := if mp <? 10 then mp + 3 else mp - 9 in
  let y := yoe + era * 400 + (if m <=? 2 then 1 else 0) in
  (y, m, d).

Definition year_string (y : Z) : string :=
  if (0 <=? y) && (y <=? 9999) then pad 4 y
  else (if y <? 0 then "-" else "+") +:+ pad 6 (Z.abs y).

(** [date.toISOString()]; [None] is the RangeError thrown on an invalid
    date. *)
Definition toISOString (tv : option Z) : option string :=
  match tv with
  | None => None
  | Some t =>
      let '(y, m, d) := civil_of_day (t / msPerDay) in
      let ms := t mod msPerDay in
      Some (year_string y +:+ "-" +:+ pad 2 m +:+ "-" +:+ pad 2 d +:+ "T"
            +:+ pad 2 (ms / 3600000) +:+ ":" +:+ pad 2 (ms / 60000 mod 60) +:+ ":"
            +:+ pad 2 (ms / 1000 mod 60) +:+ "." +:+ pad 3 (ms mod 1000) +:+ "Z")
  end.

(** The date-only ISO forms [YYYY-MM-DD] and [+YYYYYY-MM-DD] /
    [-YYYYYY-MM-DD]: year, month and day when the string has that shape. *)
Definition iso_fields (s : string) : option (Z * Z * Z) :=
  let '(sgn, ylen, body) :=
    match s with
    | String c r =>
        if Ascii.eqb c "+" then (1, 6%nat, r)
        else if Ascii.eqb c "-" then (-1, 6%nat, r)
        else (1, 4%nat, s)
    | EmptyString => (1, 4%nat, s)
    end in
  match span_digits body with
  | (y, String c1 r1) =>
      match span_digits r1 with
      | (m, String c2 r2) =>
          match span_digits r2 with
          | (d, EmptyString) =>
              if Nat.eqb (String.length y) ylen && Ascii.eqb c1 "-"
                 && Nat.eqb (String.length m) 2 && Ascii.eqb c2 "-"
                 && Nat.eqb (String.length d) 2
                 && negb ((sgn =? -1) && (digits_val 0 y =? 0))
              then Some (sgn * digits_val 0 y, digits_val 0 m, digits_val 0 d)
              else None
          | _ => None
          end
      | _ => None
      end
  | _ => None
  end.

(** The time value of a date-only ISO string that names a day of the
    calendar (UTC midnight of that day), [None] for any other string. *)
Definition iso_date_only (s : string) : option (option Z) :=
  match iso_fields s with
  | Some (y, m, d) =>
      if (1 <=? m) && (m <=? 12) && (1 <=? d)
         && (d <=? DaysInMonth (InLeapYear y) (m - 1))
      then Some (TimeClip (MakeDate (MakeDay (of_Z y) (of_Z (m - 1)) (of_Z d)) 0))
      else None
  | None => None
  end.

(** A time value as a Number. *)
Definition time_value (t : option Z) : JSNum :=
  match t with
  | Some t => of_Z t
  | None => NaN
  end.

(** [Date.parse(s)] *)
Definition Date_parse (h : Host) (s : string) : option Z :=
  match iso_date_only s with
  | Some tv => tv
  | None => Date_parse_impl h s
  end.

End JSDate.
Import JSDate.

(** A host in the UTC time zone whose identifiers are [id0], [id1], ...
    and whose engine rejects every date string outside the ISO format. *)
Definition utcHost : Host := {|
  nanoid_at := fun n => "id" +:+ pad 3 (Z.of_nat n);
  LocalTZA := fun _ => 0;
  Date_parse_impl := fun _ => None
|}.

(** A host two hours east of Greenwich. *)
Definition eastHost : Host := {|
  nanoid_at := fun n => "id" +:+ pad 3 (Z.of_nat n);
  LocalTZA := fun _ => 7200000;
  Date_parse_impl := fun _ => None
|}.

(** ** JavaScript objects with string values

    An object is the list of its own properties in the order in which
    [Object.keys] and the spread syntax enumerate them: array-index keys
    first, in ascending order, then the other keys in creation order. *)

Module JSObject.

Definition t : Type := list (string * string).

(** [o[k]]; [None] is [undefined]. *)
Fixpoint get (k : string) (o : t) : option string :=
  match o with
  | [] => None
  | (k', v) :: r => if String.eqb k' k then Some v else get k r
  end.

(** [Object.keys(o)] *)
Definition keys (o : t) : list string := map fst o.

(** The canonical numeric strings below 2^32 - 1. *)
Definition array_index (k : string) : option Z :=
  match k with
  | EmptyString => None
  | String c r =>
      if is_digit c && (negb (Ascii.eqb c "0") || String.eqb r EmptyString)
      then match span_digits k with
           | (d, EmptyString) =>
               if digits_val 0 d <? 2 ^ 32 - 1 then Some (digits_val 0 d) else None
           | _ => None
           end
      else None
  end.

Fixpoint replace (k v : string) (o : t) : t :=
  match o with
  | [] => []
  | (k', v') :: r => if String.eqb k' k then (k', v) :: r else (k', v') :: replace k v r
  end.

Fixpoint insert_index (i : Z) (k v : string) (o : t) : t :=
  match o with
  | [] => [(k, v)]
  | (k', v') :: r =>
      match array_index k' with
      | Some j => if j <? i then (k', v') :: insert_index i k v r else (k, v) :: o
      | None => (k, v) :: o
      end
  end.

(** [o[k] = v] *)
Definition set (k v : string) (o : t) : t :=
  match get k o with
  | Some _ => replace k v o
  | None =>
      match array_index k with
      | Some i => insert_index i k v o
      | None => (o ++ [(k, v)])%list
      end
  end.

(** [{...dst, ...src}]: the properties of [src] copied, in order, onto
    [dst]. *)
Definition spread (src dst : t) : t :=
  fold_left (fun acc p => set (fst p) (snd p) acc) src dst.

End JSObject.

(** ** Data model ([utils/parseCSV.ts]) *)

(** [Exclude<keyof ParsedRow, "id">] *)
Inductive Column : Type :=
| ColAccountType | ColAccountNumber | ColTransactionDate | ColChequeNumber
| ColDescription1 | ColDescription2 | ColCAD | ColUSD.

Definition colName (c : Column) : string :=
  match c with
  | ColAccountType => "Account Type"
  | ColAccountNumber => "Account Number"
  | ColTransactionDate => "Transaction Date"
  | ColChequeNumber => "Cheque Number"
  | ColDescription1 => "Description 1"
  | ColDescription2 => "Description 2"
  | ColCAD => "CAD$"
  | ColUSD => "USD$"
  end.

Record ParsedRow : Type := {
  row_id : string;
  Account_Type : string;
  Account_Number : string;
  Transaction_Date : string;
  Cheque_Number : string;
  Description_1 : string;
  Description_2 : string;
  CAD_amount : string;
  USD_amount : string
}.

(** [row[col]] for a column of the schema *)
Definition field (row : ParsedRow) (col : Column) : string :=
  match col with
  | ColAccountType => Account_Type row
  | ColAccountNumber => Account_Number row
  | ColTransactionDate => Transaction_Date row
  | ColChequeNumber => Cheque_Number row
  | ColDescription1 => Description_1 row
  | ColDescription2 => Description_2 row
  | ColCAD => CAD_amount row
  | ColUSD => USD_amount row
  end.

Record DBTransaction : Type := {
  db_id : string;
  accountType : string;
  accountNumber : string;
  transactionDate : string;
  chequeNumber : string;
  description1 : string;
  description2 : string;
  cadAmount : string;
  usdAmount : string
}.

Definition REQUIRED_HEADERS : list Column :=
  [ColAccountType; ColAccountNumber; ColTransactionDate; ColChequeNumber;
   ColDescription1; ColDescription2; ColCAD; ColUSD].

Definition convertToDBFormat (row : ParsedRow) : DBTransaction := {|
  db_id := row_id row;
  accountType := Account_Type row;
  accountNumber := Account_Number row;
  transactionDate := Transaction_Date row;
  chequeNumber := Cheque_Number row;
  description1 := Description_1 row;
  description2 := Description_2 row;
  cadAmount := CAD_amount row;
  usdAmount := USD_amount row
|}.

(** ** The world: the IndexedDB object store and the identifier generator *)

Record World : Type := {
  (** object store [transactions], keyed by its key path [id] *)
  store : gmap string DBTransaction;
  (** how many identifiers [nanoid()] has handed out *)
  drawn : nat
}.

Definition with_store (s : gmap string DBTransaction) (w : World) : World :=
  {| store := s; drawn := drawn w |}.

(** Exceptions the modelled code throws. *)
Inductive JSError : Type :=
| NoDataToValidate                         (* Error("No data to validate") *)
| InvalidHeaders                           (* Error("Invalid headers detected during validation") *)
| InvalidType (col value : string)         (* Error(`Invalid type for column "${col}": ${value}`) *)
| RangeError_InvalidTimeValue              (* thrown by toISOString on an invalid date *)
| ConstraintError                          (* IndexedDB: the key is already in the store *)
| NotFound (id : string)                   (* Error(`Transaction with id ${id} not found`) and the like *)
| FailedToStore (cause : JSError).         (* Error(`Failed to store transaction: ${message}`) *)

(** Computations that read and write the world and may throw. *)
Definition M (A : Type) : Type := World -> World * (JSError + A).

Definition ret {A} (a : A) : M A := fun w => (w, inr a).
Definition throw {A} (e : JSError) : M A := fun w => (w, inl e).
Definition bind {A B} (m : M A) (k : A -> M B) : M B :=
  fun w => match m w with
           | (w', inr a) => k a w'
           | (w', inl e) => (w', inl e)
           end.
Definition lift {A} (r : JSError + A) : M A := fun w => (w, r).
(** [try { m } catch (error) { throw handler(error) }] *)
Definition rethrow {A} (m : M A) (handler : JSError -> JSError) : M A :=
  fun w => match m w with
           | (w', inl e) => (w', inl (handler e))
           | r => r
           end.

Notation "'do' x <- m ; k" := (bind m (fun x => k))
  (at level 10, x name, m at level 100, k at level 200).

(** [nanoid()] *)
Definition nanoid (h : Host) : M string :=
  fun w => ({| store := store w; drawn := S (drawn w) |}, inr (nanoid_at h (drawn w))).

(** ** Storage gateway ([services/idb/transactionsRepo.ts])

    Every function opens its own IndexedDB transaction on the object store
    [transactions].  [add] fails with a ConstraintError when the key is
    already present; a failed request aborts its transaction, which undoes
    the writes made in that transaction and in no other. *)

Definition addTransaction (row : ParsedRow) : M unit :=
  fun w =>
    let dbRow := convertToDBFormat row in
    match store w !! db_id dbRow with
    | Some _ => (w, inl ConstraintError)
    | None => (with_store (<[db_id dbRow := dbRow]> (store w)) w, inr tt)
    end.

(** The [add] requests of one transaction, on the transaction's view of
    the store; [None] when one of them fails. *)
Fixpoint addAll (rows : list ParsedRow) (s : gmap string DBTransaction)
  : option (gmap string DBTransaction) :=
  match rows with
  | [] => Some s
  | row :: rest =>
      let dbRow := convertToDBFormat row in
      match s !! db_id dbRow with
      | Some _ => None
      | None => addAll rest (<[db_id dbRow := dbRow]> s)
      end
  end.

Definition addTransactions (rows : list ParsedRow) : M unit :=
  fun w =>
    match addAll rows (store w) with
    | Some s => (with_store s w, inr tt)
    | None => (w, inl ConstraintError)
    end.

Definition getTransaction (id : string) : M DBTransaction :=
  fun w =>
    match store w !! id with
    | Some record => (w, inr record)
    | None => (w, inl (NotFound id))
    end.

Definition updateTransaction (row : ParsedRow) : M unit :=
  fun w =>
    match store w !! row_id row with
    | Some _ =>
        let dbRow := convertToDBFormat row in
        (with_store (<[db_id dbRow := dbRow]> (store w)) w, inr tt)
    | None => (w, inl (NotFound (row_id row)))
    end.

Definition deleteTransaction (id : string) : M unit :=
  fun w => (with_store (delete id (store w)) w, inr tt).

Definition clearTransactions : M unit :=
  fun w => (with_store ∅ w, inr tt).

Definition getTransactionCount : M nat :=
  fun w => (w, inr (size (store w))).

(** ** Decoder ([utils/parseCSV.ts])

    [parseCSV] is given here the records PapaParse delivers in header mode
    ([results.data]): one object per data line, keyed by the decoded header
    fields.  Its [complete] callback maps each record [row] to
    [{ id: nanoid(), ...row }]. *)

Fixpoint parseCSV (h : Host) (data : list JSObject.t) : M (list JSObject.t) :=
  match data with
  | [] => ret []
  | row :: rest =>
      do i <- nanoid h;
      do rows <- parseCSV h rest;
      ret (JSObject.spread row [("id", i)] :: rows)
  end.

(** ** Validation ([utils/schemaValidation.ts]) *)

Inductive ColType : Type := TString | TNumber | TDate.

Record Rule : Type := { rule_type : ColType; allowEmpty : bool }.

Definition COLUMN_RULES (col : Column) : Rule :=
  match col with
  | ColAccountType => {| rule_type := TString; allowEmpty := false |}
  | ColAccountNumber => {| rule_type := TString; allowEmpty := false |}
  | ColTransactionDate => {| rule_type := TDate; allowEmpty := false |}
  | ColChequeNumber => {| rule_type := TString; allowEmpty := true |}
  | ColDescription1 => {| rule_type := TString; allowEmpty := false |}
  | ColDescription2 => {| rule_type := TString; allowEmpty := true |}
  | ColCAD => {| rule_type := TNumber; allowEmpty := true |}
  | ColUSD => {| rule_type := TNumber; allowEmpty := true |}
  end.

(** [value] is a string, so [value === null || value === undefined] is
    false and [typeof value === "string"] is true. *)
Definition checkType (h : Host) (value : string) (expectedType : ColType)
    (allow_empty : bool) : bool :=
  if allow_empty && String.eqb value "" then true
  else match expectedType with
       | TString => true
       | TNumber => negb (isNaN (Number value))
       | TDate => negb (isNaN (time_value (Date_parse h value)))
       end.

(** [array[0]]; [split] never returns an empty array. *)
Definition first (l : list string) : string := hd EmptyString l.

Definition sanitizeRow (h : Host) (row : ParsedRow) : JSError + ParsedRow :=
  let parts := split "/" (Transaction_Date row) in
  let month := parts !! 0%nat in
  let day := parts !! 1%nat in
  let year := parts !! 2%nat in
  let date := Date_of_components h (to_number year)
                (sub (to_number month) (Fin (Qmake 1 1))) (to_number day) in
  match toISOString date with
  | None => inl RangeError_InvalidTimeValue
  | Some iso =>
      inr {| row_id := row_id row;
             Transaction_Date := first (split "T" iso);
             CAD_amount := trim (CAD_amount row);
             USD_amount := trim (USD_amount row);
             Account_Number := trim (Account_Number row);
             Description_1 := trim (Description_1 row);
             Description_2 := trim (Description_2 row);
             Account_Type := trim (Account_Type row);
             Cheque_Number := trim (Cheque_Number row) |}
  end.

(** [row[k] || ""]: an absent property and the empty string both give
    the empty string. *)
Definition or_empty (v : option string) : string :=
  match v with
  | Some s => s
  | None => EmptyString
  end.

(** [row.id || nanoid()]: an identifier is drawn only when the row has
    none. *)
Definition idOrFresh (h : Host) (row : JSObject.t) : M string :=
  match JSObject.get "id" row with
  | Some (String _ _ as i) => ret i
  | _ => nanoid h
  end.

(** The object literal [cleanRow] of the loop, given its [id]. *)
Definition cleanFields (i : string) (row : JSObject.t) : ParsedRow :=
  {| row_id := i;
     Account_Type := or_empty (JSObject.get "Account Type" row);
     Account_Number := or_empty (JSObject.get "Account Number" row);
     Transaction_Date := or_empty (JSObject.get "Transaction Date" row);
     Cheque_Number := or_empty (JSObject.get "Cheque Number" row);
     Description_1 := or_empty (JSObject.get "Description 1" row);
     Description_2 := or_empty (JSObject.get "Description 2" row);
     CAD_amount := or_empty (JSObject.get "CAD$" row);
     USD_amount := or_empty (JSObject.get "USD$" row) |}.

Definition cleanRow (h : Host) (row : JSObject.t) : M ParsedRow :=
  do i <- idOrFresh h row;
  ret (cleanFields i row).

(** The inner loop over [REQUIRED_HEADERS]: the first column whose value
    fails its rule throws. *)
Fixpoint checkColumns (h : Host) (row : ParsedRow) (cols : list Column)
  : JSError + unit :=
  match cols with
  | [] => inr tt
  | col :: rest =>
      let rule := COLUMN_RULES col in
      if checkType h (field row col) (rule_type rule) (allowEmpty rule)
      then checkColumns h row rest
      else inl (InvalidType (colName col) (field row col))
  end.

(** One iteration of the first loop, after [cleanRow] is built. *)
Definition sanitizeAndCheck (h : Host) (clean : ParsedRow) : JSError + ParsedRow :=
  match sanitizeRow h clean with
  | inl e => inl e
  | inr sanitizedRow =>
      match checkColumns h sanitizedRow REQUIRED_HEADERS with
      | inl e => inl e
      | inr _ => inr sanitizedRow
      end
  end.

(** The first loop: sanitize and validate all rows. *)
Fixpoint validateAll (h : Host) (rows : list JSObject.t) : M (list ParsedRow) :=
  match rows with
  | [] => ret []
  | row :: rest =>
      do clean <- cleanRow h row;
      do sanitizedRow <- lift (sanitizeAndCheck h clean);
      do validated <- validateAll h rest;
      ret (sanitizedRow :: validated)
  end.

(** The second loop: store each validated row, one transaction per row. *)
Fixpoint storeAll (validated : list ParsedRow) : M unit :=
  match validated with
  | [] => ret tt
  | validatedRow :: rest =>
      do _ <- rethrow (addTransaction validatedRow) FailedToStore;
      storeAll rest
  end.

(** [REQUIRED_HEADERS.every((h, i) => h === firstRowKeys[i])] *)
Definition every_header (firstRowKeys : list string) : bool :=
  forallb (fun hi => match firstRowKeys !! (fst hi) with
                     | Some k => String.eqb (colName (snd hi)) k
                     | None => false
                     end)
          (imap (fun i col => (i, col)) REQUIRED_HEADERS).

Definition headerKeys (row : JSObject.t) : list string :=
  List.filter (fun k => negb (String.eqb k "id") && negb (String.eqb k "__parsed_extra"))
              (JSObject.keys row).

Definition validateRows (h : Host) (rows : list JSObject.t) : M (list ParsedRow) :=
  match rows with
  | [] => throw NoDataToValidate
  | row0 :: _ =>
      let firstRowKeys := headerKeys row0 in
      if negb (Nat.eqb (length firstRowKeys) (length REQUIRED_HEADERS))
         || negb (every_header firstRowKeys)
      then throw InvalidHeaders
      else
        do validated <- validateAll h rows;
        do _ <- storeAll validated;
        ret validated
  end.

(** [handleParse] of the upload zone: decode, then validate and store.
    The error, if any, is shown to the user. *)
Definition handleParse (h : Host) (data : list JSObject.t) : M (list ParsedRow) :=
  do parsedRows <- parseCSV h data;
  validateRows h parsedRows.

(** The row [row] with identifier [i]. *)
Definition with_id (i : string) (row : ParsedRow) : ParsedRow :=
  {| row_id := i;
     Account_Type := Account_Type row;
     Account_Number := Account_Number row;
     Transaction_Date := Transaction_Date row;
     Cheque_Number := Cheque_Number row;
     Description_1 := Description_1 row;
     Description_2 := Description_2 row;
     CAD_amount := CAD_amount row;
     USD_amount := USD_amount row |}.

(** ** Sample inputs *)

(** A decoded record of a statement with the required header. *)
Definition record (date description cad : string) : JSObject.t :=
  [("Account Type", "Chequing"); ("Account Number", "12345");
   ("Transaction Date", date); ("Cheque Number", "");
   ("Description 1", description); ("Description 2", "");
   ("CAD$", cad); ("USD$", "")].

(** The same record as a parsed row carrying identifier [i]. *)
Definition parsed (i date description cad : string) : JSObject.t :=
  ("id", i) :: record date description cad.

Definition emptyWorld : World := {| store := ∅; drawn := 0 |}.

Definition groceries : ParsedRow := {|
  row_id := "a";
  Account_Type := "Chequing";
  Account_Number := "12345";
  Transaction_Date := "2024-01-15";
  Cheque_Number := "";
  Description_1 := "Grocery Store";
  Description_2 := "";
  CAD_amount := "-54.32";
  USD_amount := ""
|}.

(** A store that holds one record, under key [a]. *)
Definition oneRecordWorld : World :=
  {| store := {[ "a" := convertToDBFormat groceries ]}; drawn := 1 |}.

(** Two rows of one batch that carry the same identifier. *)
Definition duplicateBatch : list JSObject.t :=
  [parsed "a" "01/15/2024" "Grocery Store" "-54.32";
   parsed "a" "01/16/2024" "Pharmacy" "-12.00"].

(** A record decoded from a file whose header line has a ninth column,
    named [id], before the eight required ones. *)
Definition idColumnRecord : JSObject.t :=
  ("id", "7") :: record "01/15/2024" "Grocery Store" "-54.32".

(** The row [groceries] as sanitized from the date [13/45/2024]. *)
Definition rolledOver : ParsedRow := {|
  row_id := "a";
  Account_Type := "Chequing";
  Account_Number := "12345";
  Transaction_Date := "2025-02-14";
  Cheque_Number := "";
  Description_1 := "Grocery Store";
  Description_2 := "";
  CAD_amount := "-54.32";
  USD_amount := ""
|}.

(** The canonical form [YYYY-MM-DD] of a date. *)
Definition canonical_date (s : string) : bool :=
  match s with
  | String y1 (String y2 (String y3 (String y4 (String s1
      (String m1 (String m2 (String s2 (String d1 (String d2 EmptyString))))))))) =>
      is_digit y1 && is_digit y2 && is_digit y3 && is_digit y4 && Ascii.eqb s1 "-"
      && is_digit m1 && is_digit m2 && Ascii.eqb s2 "-" && is_digit d1 && is_digit d2
  | _ => false
  end.

(** No code unit of [s] is [sep]. *)
Fixpoint free_of (sep : ascii) (s : string) : bool :=
  match s with
  | String c r => negb (Ascii.eqb c sep) && free_of sep r
  | EmptyString => true
  end.


(** The row carries a non-empty identifier. *)
Definition has_id (row : JSObject.t) : Prop :=
  exists i, JSObject.get "id" row = Some i /\ i <> "".

(** ** Reads of the storage gateway

    [getAll] on an object store, and on an index for one index key,
    returns the matching records in ascending order of primary key;
    string keys are ordered by their code units. *)

Definition key_le (a b : string * DBTransaction) : Prop :=
  String.leb (fst a) (fst b) = true.

#[global] Instance key_le_dec (a b : string * DBTransaction) : Decision (key_le a b).
Proof. unfold key_le. apply _. Defined.

(** The records of the store, in key order. *)
Definition records (s : gmap string DBTransaction) : list DBTransaction :=
  map snd (merge_sort key_le (map_to_list s)).

Definition getAllTransactions : M (list DBTransaction) :=
  fun w => (w, inr (records (store w))).

(** Index [byAccountNumber], on the property [accountNumber]. *)
Definition getByAccountNumber (account : string) : M (list DBTransaction) :=
  fun w => (w, inr (filter (fun r => accountNumber r = account) (records (store w)))).

(** Index [byTransactionDate], on the property [transactionDate]. *)
Definition getByTransactionDate (date : string) : M (list DBTransaction) :=
  fun w => (w, inr (filter (fun r => transactionDate r = date) (records (store w)))).

(** Order of the records by their [id]. *)
Definition id_le (a b : DBTransaction) : Prop :=
  String.leb (db_id a) (db_id b) = true.

(** The object store has key path [id]: a record is stored under its own
    [id]. *)
Definition keyed (s : gmap string DBTransaction) : Prop :=
  forall k r, s !! k = Some r -> db_id r = k.

(** ** Vocabulary for strings *)

(** Every code unit of [s] is white space. *)
Fixpoint all_ws (s : string) : bool :=
  match s with
  | String c r => is_ws c && all_ws r
  | EmptyString => true
  end.

(** [s] begins with a white space character. *)
Definition starts_ws (s : string) : bool :=
  match s with
  | String c _ => is_ws c
  | EmptyString => false
  end.

(** [s] ends with a white space character. *)
Fixpoint ends_ws (s : string) : bool :=
  match s with
  | String c EmptyString => is_ws c
  | String _ r => ends_ws r
  | EmptyString => false
  end.

(** How many times [sep] occurs in [s]. *)
Fixpoint occurrences (sep : ascii) (s : string) : nat :=
  match s with
  | String c r => (if Ascii.eqb c sep then 1 else 0) + occurrences sep r
  | EmptyString => 0
  end.

(** ** The header check of the first upload zone
    ([features/csv/components/UploadZone.tsx])

    [validateHeaders] compares [JSON.stringify(headers)] with
    [JSON.stringify(REQUIRED_HEADERS)]. *)

(** The double quote. *)
Definition dq : ascii := ascii_of_nat 34.

Definition hex_digit (n : Z) : ascii :=
  ascii_of_N (Z.to_N (if n <? 10 then 48 + n else 87 + n)).

(** One code unit inside a JSON string: the short escapes, [\u00XX] for
    the other control characters, the code unit itself otherwise. *)
Definition escape_char (c : ascii) : string :=
  let n := code c in
  if n =? 8 then "\b"
  else if n =? 9 then "\t"
  else if n =? 10 then "\n"
  else if n =? 12 then "\f"
  else if n =? 13 then "\r"
  else if n =? 34 then String "\" (String dq EmptyString)
  else if n =? 92 then "\\"
  else if n <? 32
       then "\u00" +:+ String (hex_digit (n / 16)) (String (hex_digit (n mod 16)) EmptyString)
       else String c EmptyString.

Fixpoint escape (s : string) : string :=
  match s with
  | String c r => escape_char c +:+ escape r
  | EmptyString => EmptyString
  end.

Definition QuoteJSONString (s : string) : string :=
  String dq (escape s +:+ String dq EmptyString).

(** [items.join(",")] *)
Fixpoint join_comma (items : list string) : string :=
  match items with
  | [] => EmptyString
  | [x] => x
  | x :: rest => x +:+ "," +:+ join_comma rest
  end.

(** [JSON.stringify] of an array of strings. *)
Definition JSON_stringify (l : list string) : string :=
  "[" +:+ join_comma (map QuoteJSONString l) +:+ "]".

Definition validateHeaders (headers : list string) : bool :=
  String.eqb (JSON_stringify headers) (JSON_stringify (map colName REQUIRED_HEADERS)).

(** A reader for what [escape] writes, up to the closing quote: the
    string read and what follows the quote.  It serves the proofs only. *)
Definition unescape_cons (c : ascii) (o : option (string * string))
  : option (string * string) :=
  match o with
  | Some (t, rest) => Some (String c t, rest)
  | None => None
  end.

Definition hex_value (c : ascii) : option Z :=
  let n := code c in
  if (48 <=? n) && (n <=? 57) then Some (n - 48)
  else if (97 <=? n) && (n <=? 102) then Some (n - 87)
  else None.

Definition short_escape (e : ascii) : option ascii :=
  if Ascii.eqb e "b" then Some (ascii_of_nat 8)
  else if Ascii.eqb e "t" then Some (ascii_of_nat 9)
  else if Ascii.eqb e "n" then Some (ascii_of_nat 10)
  else if Ascii.eqb e "f" then Some (ascii_of_nat 12)
  else if Ascii.eqb e "r" then Some (ascii_of_nat 13)
  else if Ascii.eqb e dq then Some dq
  else if Ascii.eqb e "\" then Some "\"%char
  else None.

Fixpoint unescape (s : string) : option (string * string) :=
  match s with
  | EmptyString => None
  | String c r =>
      if Ascii.eqb c dq then Some (EmptyString, r)
      else if Ascii.eqb c "\" then
        match r with
        | String e r1 =>
            if Ascii.eqb e "u" then
              match r1 with
              | String h1 (String h2 (String h3 (String h4 r2))) =>
                  match hex_value h1, hex_value h2, hex_value h3, hex_value h4 with
                  | Some a, Some b, Some x, Some y =>
                      if (a =? 0) && (b =? 0)
                      then unescape_cons (ascii_of_N (Z.to_N (16 * x + y))) (unescape r2)
                      else None
                  | _, _, _, _ => None
                  end
              | _ => None
              end
            else match short_escape e with
                 | Some c' => unescape_cons c' (unescape r1)
                 | None => None
                 end
        | EmptyString => None
        end
      else unescape_cons c (unescape r)
  end.

(** ** Pages of the transactions table ([components/dbTableDisplay.tsx]) *)

(** [l.slice(start, stop)]: a negative index counts from the end, and
    both indices are clamped to the array. *)
Definition slice {A} (start stop : Z) (l : list A) : list A :=
  let len := Z.of_nat (length l) in
  let k := if start <? 0 then Z.max (len + start) 0 else Z.min start len in
  let final := if stop <? 0 then Z.max (len + stop) 0 else Z.min stop len in
  take (Z.to_nat (final - k)) (drop (Z.to_nat k) l).

Definition paginatedTransactions {A} (currentPage itemsPerPage : Z)
    (processedTransactions : list A) : list A :=
  let startIndex := (currentPage - 1) * itemsPerPage in
  slice startIndex (startIndex + itemsPerPage) processedTransactions.

(** ** Vocabulary for dates *)

(** The date of day number [day], as [toISOString] writes it. *)
Definition date_of_day (day : Z) : string :=
  let '(y, m, d) := civil_of_day day in
  year_string y +:+ "-" +:+ pad 2 m +:+ "-" +:+ pad 2 d.

(** The day number of the local date that [sanitizeRow] builds from the
    Transaction Date of [row]; [None] when the date is invalid. *)
Definition localDay (row : ParsedRow) : option Z :=
  let parts := split "/" (Transaction_Date row) in
  MakeDay (MakeFullYear (to_number (parts !! 2%nat)))
          (sub (to_number (parts !! 0%nat)) (Fin (Qmake 1 1)))
          (to_number (parts !! 1%nat)).

(** The row [row] with Transaction Date [date]. *)
Definition with_date (date : string) (row : ParsedRow) : ParsedRow :=
  {| row_id := row_id row;
     Account_Type := Account_Type row;
     Account_Number := Account_Number row;
     Transaction_Date := date;
     Cheque_Number := Cheque_Number row;
     Description_1 := Description_1 row;
     Description_2 := Description_2 row;
     CAD_amount := CAD_amount row;
     USD_amount := USD_amount row |}.

(** ** The earlier validator

    The second copy of [schemaValidation.ts] in the repository: it has a
    rule table of its own, checks the raw values of a row without
    sanitizing them, fills in a missing identifier on the row itself, and
    stores nothing. *)

Module Legacy.

Definition COLUMN_RULES (col : Column) : Rule :=
  match col with
  | ColAccountType => {| rule_type := TString; allowEmpty := true |}
  | ColAccountNumber => {| rule_type := TString; allowEmpty := true |}
  | ColTransactionDate => {| rule_type := TDate; allowEmpty := true |}
  | ColChequeNumber => {| rule_type := TString; allowEmpty := false |}
  | ColDescription1 => {| rule_type := TString; allowEmpty := false |}
  | ColDescription2 => {| rule_type := TString; allowEmpty := false |}
  | ColCAD => {| rule_type := TNumber; allowEmpty := true |}
  | ColUSD => {| rule_type := TNumber; allowEmpty := true |}
  end.

(** [String(value)], as the engine converts [undefined] for [Date.parse]
    and for the error message. *)
Definition to_string (value : option string) : string :=
  match value with
  | Some s => s
  | None => "undefined"
  end.

(** The value is [row[col]], which is [undefined] when the row has no
    such property. *)
Definition checkType (h : Host) (value : option string) (expectedType : ColType)
    (allow_empty : bool) : bool :=
  if allow_empty && match value with Some s => String.eqb s "" | None => false end
  then true
  else match expectedType with
       | TString => match value with Some _ => true | None => false end
       | TNumber => negb (isNaN (to_number value))
       | TDate => negb (isNaN (time_value (Date_parse h (to_string value))))
       end.

Fixpoint checkColumns (h : Host) (row : JSObject.t) (cols : list Column)
  : JSError + unit :=
  match cols with
  | [] => inr tt
  | col :: rest =>
      let rule := COLUMN_RULES col in
      let value := JSObject.get (colName col) row in
      if checkType h value (rule_type rule) (allowEmpty rule)
      then checkColumns h row rest
      else inl (InvalidType (colName col) (to_string value))
  end.

(** [if (!row.id) row.id = nanoid()] *)
Definition fillId (h : Host) (row : JSObject.t) : M JSObject.t :=
  match JSObject.get "id" row with
  | Some (String _ _) => ret row
  | _ => do i <- nanoid h; ret (JSObject.set "id" i row)
  end.

Fixpoint validateAll (h : Host) (rows : list JSObject.t) : M (list JSObject.t) :=
  match rows with
  | [] => ret []
  | row :: rest =>
      do _ <- lift (checkColumns h row REQUIRED_HEADERS);
      do row' <- fillId h row;
      do validated <- validateAll h rest;
      ret (row' :: validated)
  end.

Definition validateRows (h : Host) (rows : list JSObject.t) : M (list JSObject.t) :=
  match rows with
  | [] => throw NoDataToValidate
  | row0 :: _ =>
      let firstRowKeys := headerKeys row0 in
      if negb (Nat.eqb (length firstRowKeys) (length REQUIRED_HEADERS))
         || negb (every_header firstRowKeys)
      then throw InvalidHeaders
      else validateAll h rows
  end.

End Legacy.



(** * Properties *)

(** ** The models of the JavaScript primitives on known values *)

Example Number_int : Number "2024" = Fin (Qmake 2024 1).
Proof. vm_compute. reflexivity. Qed.

Example Number_frac : Number " -54.32 " = Number "-5432e-2".
Proof. vm_compute. reflexivity. Qed.

Example Number_empty : Number "" = Fin (Qmake 0 1).
Proof. reflexivity. Qed.

Example Number_overflow : Number "1e309" = Inf false.
Proof. vm_compute. reflexivity. Qed.

Example Number_max : Number "1.7976931348623157e308" = Fin (Qmake (2 ^ 1024 - 2 ^ 971) 1).
Proof. vm_compute. reflexivity. Qed.

Example Number_hex : Number "0x1F" = Fin (Qmake 31 1).
Proof. vm_compute. reflexivity. Qed.

Example Number_iso_date : Number "2024-01-15" = NaN.
Proof. vm_compute. reflexivity. Qed.

Example Number_round : Number "0.99999999999999999999" = Fin (Qmake 1 1).
Proof. vm_compute. reflexivity. Qed.

Example iso_epoch : toISOString (Some 0) = Some "1970-01-01T00:00:00.000Z".
Proof. vm_compute. reflexivity. Qed.

Example iso_2024 :
  toISOString (Date_of_components utcHost (Number "2024") (sub (Number "01") (of_Z 1)) (Number "15"))
  = Some "2024-01-15T00:00:00.000Z".
Proof. vm_compute. reflexivity. Qed.

Example iso_2024_east :
  toISOString (Date_of_components eastHost (Number "2024") (sub (Number "01") (of_Z 1)) (Number "15"))
  = Some "2024-01-14T22:00:00.000Z".
Proof. vm_compute. reflexivity. Qed.

Example iso_leap :
  toISOString (Date_of_components utcHost (Number "24") (sub (Number "2") (of_Z 1)) (Number "30"))
  = Some "1924-03-01T00:00:00.000Z".
Proof. vm_compute. reflexivity. Qed.

Example iso_max : toISOString (Some 8640000000000000) = Some "+275760-09-13T00:00:00.000Z".
Proof. vm_compute. reflexivity. Qed.

Example iso_min : toISOString (Some (-8640000000000000)) = Some "-271821-04-20T00:00:00.000Z".
Proof. vm_compute. reflexivity. Qed.

Example iso_bc : toISOString (Some (-62167219200000 - 1)) = Some "-000001-12-31T23:59:59.999Z".
Proof. vm_compute. reflexivity. Qed.

Example parse_iso : Date_parse utcHost "2024-01-15" = Some 1705276800000.
Proof. vm_compute. reflexivity. Qed.

Example parse_iso_max : Date_parse utcHost "+275760-09-13" = Some 8640000000000000.
Proof. vm_compute. reflexivity. Qed.

Example spread_keys :
  JSObject.keys (JSObject.spread [("7", "x"); ("b", "y"); ("id", "z")] [("id", "n")])
  = ["7"; "id"; "b"].
Proof. vm_compute. reflexivity. Qed.

(** ** The monad *)

Lemma bind_inl {A B} (m : M A) (k : A -> M B) w w' e :
  m w = (w', inl e) -> bind m k w = (w', inl e).
Proof. intros Hm. unfold bind. rewrite Hm. reflexivity. Qed.

Lemma bind_inr {A B} (m : M A) (k : A -> M B) w w' a :
  m w = (w', inr a) -> bind m k w = k a w'.
Proof. intros Hm. unfold bind. rewrite Hm. reflexivity. Qed.

(** ** The first loop never touches the store *)

Lemma idOrFresh_total h row w :
  exists w' i, idOrFresh h row w = (w', inr i) /\ store w' = store w.
Proof.
  unfold idOrFresh.
  destruct (JSObject.get "id" row) as [[|c i]|]; cbn; eauto.
Qed.

Lemma cleanRow_total h row w :
  exists w' i, cleanRow h row w = (w', inr (cleanFields i row)) /\ store w' = store w.
Proof.
  destruct (idOrFresh_total h row w) as (w' & i & Hi & Hs).
  exists w', i. split; [|exact Hs].
  unfold cleanRow. rewrite (bind_inr _ _ _ _ _ Hi). reflexivity.
Qed.

Lemma validateAll_store h rows :
  forall w, store (validateAll h rows w).1 = store w.
Proof.
  induction rows as [|row rest IH]; intros w; [reflexivity|].
  destruct (cleanRow_total h row w) as (w1 & i & Hc & Hs).
  cbn [validateAll]. rewrite (bind_inr _ _ _ _ _ Hc).
  unfold lift, bind at 1.
  destruct (sanitizeAndCheck h (cleanFields i row)) as [e|s]; [exact Hs|].
  unfold bind. specialize (IH w1).
  destruct (validateAll h rest w1) as [w2 [e|v]]; cbn in *; congruence.
Qed.

(** ** Failure of a row does not depend on its identifier *)

Lemma field_with_id i row col : field (with_id i row) col = field row col.
Proof. destruct col; reflexivity. Qed.

Lemma checkColumns_with_id h i row cols :
  checkColumns h (with_id i row) cols = checkColumns h row cols.
Proof.
  induction cols as [|col rest IH]; [reflexivity|].
  cbn [checkColumns]. rewrite field_with_id, IH. reflexivity.
Qed.

Lemma sanitizeRow_with_id h i row :
  sanitizeRow h (with_id i row) = sum_map (fun e => e) (with_id i) (sanitizeRow h row).
Proof.
  unfold sanitizeRow. cbn [Transaction_Date with_id].
  destruct (toISOString _); reflexivity.
Qed.

Lemma sanitizeAndCheck_with_id h i row :
  sanitizeAndCheck h (with_id i row)
  = sum_map (fun e => e) (with_id i) (sanitizeAndCheck h row).
Proof.
  unfold sanitizeAndCheck. rewrite sanitizeRow_with_id.
  destruct (sanitizeRow h row) as [e|s]; [reflexivity|].
  cbn [sum_map]. rewrite checkColumns_with_id.
  destruct (checkColumns h s REQUIRED_HEADERS); reflexivity.
Qed.

Lemma sanitizeAndCheck_fails_any_id h row i j e :
  sanitizeAndCheck h (cleanFields i row) = inl e ->
  sanitizeAndCheck h (cleanFields j row) = inl e.
Proof.
  intros Hi.
  change (cleanFields j row) with (with_id j (cleanFields i row)).
  rewrite sanitizeAndCheck_with_id, Hi. reflexivity.
Qed.

Lemma validateAll_fails h rows :
  forall w row i e,
    row ∈ rows ->
    sanitizeAndCheck h (cleanFields i row) = inl e ->
    exists e', (validateAll h rows w).2 = inl e'.
Proof.
  induction rows as [|r rest IH]; intros w row i e Hin Hfail.
  - inversion Hin.
  - destruct (cleanRow_total h r w) as (w1 & j & Hc & _).
    cbn [validateAll]. rewrite (bind_inr _ _ _ _ _ Hc).
    unfold lift, bind at 1.
    destruct (sanitizeAndCheck h (cleanFields j r)) as [e1|s] eqn:Hr; [eauto|].
    apply elem_of_cons in Hin as [->|Hin].
    + rewrite (sanitizeAndCheck_fails_any_id _ _ _ j _ Hfail) in Hr. discriminate.
    + destruct (IH w1 row i e Hin Hfail) as [e' He'].
      unfold bind. destruct (validateAll h rest w1) as [w2 [e2|v]]; cbn in *; eauto.
      discriminate.
Qed.

(** ** All-or-nothing on a rejected row *)

(** C1: for every batch of N >= 1 parsed rows in which at least one row
    fails sanitization or validation, [validateRows] raises an error and
    persists nothing: the store, and so [count()], is as it was before the
    attempt, because the loop that stores rows is only reached once every
    row has passed. *)
Theorem validateRows_all_or_nothing (h : Host) (rows : list JSObject.t)
    (w : World) (row : JSObject.t) (i : string) (e : JSError) :
  (1 <= length rows)%nat ->
  row ∈ rows ->
  sanitizeAndCheck h (cleanFields i row) = inl e ->
  exists e' w',
    validateRows h rows w = (w', inl e')
    /\ store w' = store w
    /\ (getTransactionCount w').2 = (getTransactionCount w).2.
Proof.
  intros _ Hin Hfail.
  destruct rows as [|row0 rest]; [inversion Hin|].
  unfold validateRows.
  destruct (negb _ || negb _).
  - exists InvalidHeaders, w. auto.
  - destruct (validateAll_fails h (row0 :: rest) w row i e Hin Hfail) as [e' He'].
    pose proof (validateAll_store h (row0 :: rest) w) as Hs.
    destruct (validateAll h (row0 :: rest) w) as [w1 r] eqn:Hv.
    cbn in He', Hs. subst r.
    exists e', w1. split; [apply bind_inl; exact Hv|].
    split; [exact Hs|]. cbn. rewrite Hs. reflexivity.
Qed.

Lemma validateRows_all_or_nothing_witness :
  let rows := [parsed "a" "01/15/2024" "Grocery Store" "-54.32";
               parsed "b" "01/16/2024" "Pharmacy" "twelve"] in
  (1 <= length rows)%nat
  /\ parsed "b" "01/16/2024" "Pharmacy" "twelve" ∈ rows
  /\ sanitizeAndCheck utcHost (cleanFields "b" (parsed "b" "01/16/2024" "Pharmacy" "twelve"))
     = inl (InvalidType "CAD$" "twelve")
  /\ exists e' w',
       validateRows utcHost rows oneRecordWorld = (w', inl e')
       /\ store w' = store oneRecordWorld
       /\ (getTransactionCount w').2 = (getTransactionCount oneRecordWorld).2.
Proof.
  intros rows.
  assert (H1 : (1 <= length rows)%nat) by (cbn; lia).
  assert (H2 : parsed "b" "01/16/2024" "Pharmacy" "twelve" ∈ rows)
    by (apply list_elem_of_further, list_elem_of_here).
  assert (H3 : sanitizeAndCheck utcHost
                 (cleanFields "b" (parsed "b" "01/16/2024" "Pharmacy" "twelve"))
               = inl (InvalidType "CAD$" "twelve")) by (vm_compute; reflexivity).
  split; [exact H1|]. split; [exact H2|]. split; [exact H3|].
  exact (validateRows_all_or_nothing utcHost rows oneRecordWorld _ _ _ H1 H2 H3).
Defined.

(** ** The empty batch *)

(** C10: [validateRows] applied to an empty list of parsed rows, which is
    what a file with only a header line decodes to, raises the error
    "No data to validate" instead of succeeding with zero rows, and
    leaves the world as it was. *)
Theorem validateRows_empty_batch (h : Host) (w : World) :
  validateRows h [] w = (w, inl NoDataToValidate)
  /\ handleParse h [] w = (w, inl NoDataToValidate).
Proof. split; reflexivity. Qed.

(** ** Deleting an absent key *)

Lemma with_store_same (w : World) : with_store (store w) w = w.
Proof. destruct w; reflexivity. Qed.

Lemma deleteTransaction_absent_world (id : string) (w : World) :
  store w !! id = None -> deleteTransaction id w = (w, inr tt).
Proof.
  intros Habsent. unfold deleteTransaction.
  rewrite (delete_id _ _ Habsent), with_store_same. reflexivity.
Qed.

(** C9, as the code has it: [deleteTransaction] on an identifier that is
    not in the store returns normally, no error is raised; the store is
    unchanged, every record is still there and [count()] is the same. *)
Theorem deleteTransaction_absent (id : string) (w : World) :
  store w !! id = None ->
  exists w',
    deleteTransaction id w = (w', inr tt)
    /\ (forall k, store w' !! k = store w !! k)
    /\ (getTransactionCount w').2 = (getTransactionCount w).2.
Proof.
  intros Habsent. exists w.
  rewrite (deleteTransaction_absent_world id w Habsent). auto.
Qed.

Lemma deleteTransaction_absent_witness :
  store oneRecordWorld !! "ghost" = None
  /\ exists w',
       deleteTransaction "ghost" oneRecordWorld = (w', inr tt)
       /\ (forall k, store w' !! k = store oneRecordWorld !! k)
       /\ (getTransactionCount w').2 = (getTransactionCount oneRecordWorld).2.
Proof.
  assert (H : store oneRecordWorld !! "ghost" = None) by (vm_compute; reflexivity).
  split; [exact H|]. exact (deleteTransaction_absent "ghost" oneRecordWorld H).
Defined.

(** C9, as stated, fails: deleting the absent key [ghost] raises nothing. *)
Lemma deleteTransaction_absent_raises_nothing :
  store oneRecordWorld !! "ghost" = None
  /\ ~ (exists e, (deleteTransaction "ghost" oneRecordWorld).2 = inl e).
Proof.
  split; [vm_compute; reflexivity|].
  intros [e He]. cbn in He. discriminate.
Qed.

(** ** Storage failure in the middle of a batch *)

(** The bulk insert of the gateway is atomic: when it fails the world is
    as before. *)
Lemma addTransactions_atomic (rows : list ParsedRow) (w w' : World) (e : JSError) :
  addTransactions rows w = (w', inl e) -> w' = w.
Proof.
  unfold addTransactions. destruct (addAll rows (store w)); congruence.
Qed.

(** C2 fails on the code: [validateRows] stores row by row, each row in a
    transaction of its own.  On a batch whose second row repeats the
    identifier of the first, the import is rejected with "Failed to store
    transaction" and the first row stays in the store, which held nothing
    before the attempt. *)
Theorem validateRows_partial_write :
  exists w',
    validateRows utcHost duplicateBatch emptyWorld
    = (w', inl (FailedToStore ConstraintError))
    /\ store w' = {[ "a" := convertToDBFormat groceries ]}
    /\ (getTransactionCount emptyWorld).2 = inr 0%nat
    /\ (getTransactionCount w').2 = inr 1%nat.
Proof.
  eexists. split; [vm_compute; reflexivity|].
  split; [|split]; vm_compute; reflexivity.
Qed.

(** The bulk insert on the same two rows, once sanitized, writes nothing. *)
Lemma addTransactions_duplicate_writes_nothing :
  addTransactions [groceries; with_id "a" rolledOver] emptyWorld
  = (emptyWorld, inl ConstraintError).
Proof. vm_compute. reflexivity. Qed.

(** ** The header gate *)

Lemma every_header_eq (firstRowKeys : list string) :
  Nat.eqb (length firstRowKeys) (length REQUIRED_HEADERS) && every_header firstRowKeys = true
  <-> firstRowKeys = map colName REQUIRED_HEADERS.
Proof.
  split.
  - intros [Hlen Hall]%andb_prop.
    apply Nat.eqb_eq in Hlen.
    do 9 (destruct firstRowKeys as [|? firstRowKeys]; try discriminate Hlen).
    unfold every_header in Hall.
    cbn -[String.eqb] in Hall.
    repeat (apply andb_prop in Hall as [?%String.eqb_eq Hall]).
    subst. reflexivity.
  - intros ->. vm_compute. reflexivity.
Qed.

(** A first row whose keys, [id] and [__parsed_extra] left out, are not
    the required header is rejected before any row is looked at. *)
Lemma header_gate (h : Host) (row0 : JSObject.t) (rest : list JSObject.t) (w : World) :
  headerKeys row0 <> map colName REQUIRED_HEADERS ->
  validateRows h (row0 :: rest) w = (w, inl InvalidHeaders).
Proof.
  intros Hne. unfold validateRows.
  destruct (Nat.eqb (length (headerKeys row0)) (length REQUIRED_HEADERS)
            && every_header (headerKeys row0)) eqn:Hok.
  - apply every_header_eq in Hok. contradiction.
  - rewrite <- negb_andb, Hok. reflexivity.
Qed.

(** C3 fails on the code: the header is read back from the keys of the
    first row with [id] left out, so a file whose header has a column
    named [id] next to the eight required ones passes the gate; its row is
    validated and stored. *)
Theorem header_gate_accepts_id_column :
  JSObject.keys idColumnRecord <> map colName REQUIRED_HEADERS
  /\ length (JSObject.keys idColumnRecord) = 9%nat
  /\ exists w',
       handleParse utcHost [idColumnRecord] emptyWorld
       = (w', inr [with_id "7" groceries])
       /\ store w' = {[ "7" := convertToDBFormat (with_id "7" groceries) ]}
       /\ (getTransactionCount w').2 = inr 1%nat.
Proof.
  split; [discriminate|]. split; [reflexivity|].
  eexists. split; [vm_compute; reflexivity|].
  split; vm_compute; reflexivity.
Qed.

(** ** Dates out of range *)

(** C4 fails on the code: the [Date] constructor carries month 13 and day
    45 over into the next year, so the row with Transaction Date
    13/45/2024 is sanitized to 2025-02-14, passes validation and is
    stored; no error is raised. *)
Theorem sanitizeRow_rolls_over :
  sanitizeRow utcHost (cleanFields "a" (record "13/45/2024" "Grocery Store" "-54.32"))
  = inr rolledOver
  /\ exists w',
       validateRows utcHost [parsed "a" "13/45/2024" "Grocery Store" "-54.32"] emptyWorld
       = (w', inr [rolledOver])
       /\ store w' = {[ "a" := convertToDBFormat rolledOver ]}.
Proof.
  split; [vm_compute; reflexivity|].
  eexists. split; vm_compute; reflexivity.
Qed.

(** ** Empty text fields *)

(** C5 fails on the code: the rule of Description 1 has [allowEmpty]
    false, yet [checkType] answers true for every string checked against
    type [string], the empty one included; the row with an empty
    Description 1 is validated and stored. *)
Theorem empty_description_accepted :
  COLUMN_RULES ColDescription1 = {| rule_type := TString; allowEmpty := false |}
  /\ (forall h, checkType h "" TString false = true)
  /\ exists w',
       validateRows utcHost [parsed "a" "01/15/2024" "" "-54.32"] emptyWorld
       = (w', inr [{| row_id := "a"; Account_Type := "Chequing";
                      Account_Number := "12345"; Transaction_Date := "2024-01-15";
                      Cheque_Number := ""; Description_1 := ""; Description_2 := "";
                      CAD_amount := "-54.32"; USD_amount := "" |}])
       /\ (getTransactionCount w').2 = inr 1%nat.
Proof.
  split; [reflexivity|]. split; [reflexivity|].
  eexists. split; vm_compute; reflexivity.
Qed.

(** ** The number rule *)

Lemma isNaN_false_iff (x : JSNum) :
  isNaN x = false <-> isFinite x = true \/ exists b, x = Inf b.
Proof.
  destruct x as [|b|q]; cbn; split; intros H; eauto; try discriminate.
  destruct H as [H|[b H]]; discriminate.
Qed.

(** C6, as the code has it: for a value that is not empty, or a rule
    whose [allowEmpty] is true, a value checked against a rule of type
    [number] is accepted if and only if it is not empty and
    [Number(value)] is a finite number or an infinity (that is, not NaN),
    or it is empty and [allowEmpty] is true.  Nothing is said of the empty
    value under a rule whose [allowEmpty] is false. *)
Theorem checkType_number (h : Host) (value : string) (allow_empty : bool) :
  value <> "" \/ allow_empty = true ->
  (checkType h value TNumber allow_empty = true
   <-> (value <> "" /\ (isFinite (Number value) = true \/ exists b, Number value = Inf b))
       \/ (value = "" /\ allow_empty = true)).
Proof.
  intros Hcase. rewrite <- isNaN_false_iff. unfold checkType.
  destruct (String.eqb_spec value "") as [->|Hne].
  - destruct Hcase as [Hne | ->]; [contradiction|]. cbn [andb]. split; [auto|reflexivity].
  - rewrite andb_false_r, negb_true_iff. split; [auto|].
    intros [[_ Hnum]|[Hempty _]]; [exact Hnum|contradiction].
Qed.

Lemma checkType_number_witness :
  ("" <> "" \/ true = true)
  /\ (checkType utcHost "" TNumber true = true
      <-> ("" <> "" /\ (isFinite (Number "") = true \/ exists b, Number "" = Inf b))
          \/ ("" = "" /\ true = true)).
Proof.
  assert (H : "" <> "" \/ true = true) by (right; reflexivity).
  split; [exact H|]. exact (checkType_number utcHost "" true H).
Defined.

(** The case the statement above leaves out: the empty value is accepted
    under a number rule whose [allowEmpty] is false as well, [Number("")]
    being 0. *)
Lemma checkType_number_empty_not_allowed (h : Host) :
  checkType h "" TNumber false = true.
Proof. reflexivity. Qed.

(** C6, as stated, fails: [Infinity] is accepted by the number rule, and
    it neither converts to a finite number nor is empty. *)
Lemma checkType_number_accepts_Infinity :
  ~ (checkType utcHost "Infinity" TNumber false = true
     <-> isFinite (Number "Infinity") = true \/ ("Infinity" = "" /\ false = true)).
Proof.
  intros [Hacc _].
  destruct (Hacc eq_refl) as [Hfin|[Hempty _]]; discriminate.
Qed.

(** ** Sanitizing twice *)

Lemma split_free_of (sep : ascii) (s : string) :
  free_of sep s = true -> split sep s = [s].
Proof.
  induction s as [|c r IH]; [reflexivity|].
  cbn [free_of split]. intros [Hc Hr]%andb_prop.
  apply negb_true_iff in Hc. rewrite Hc, (IH Hr). reflexivity.
Qed.

Lemma is_digit_not_slash (c : ascii) : is_digit c = true -> Ascii.eqb c "/" = false.
Proof.
  intros Hd. apply Ascii.eqb_neq. intros ->. discriminate Hd.
Qed.

Lemma canonical_date_free_of_slash (s : string) :
  canonical_date s = true -> free_of "/" s = true.
Proof.
  unfold canonical_date.
  do 10 (destruct s as [|? s]; try discriminate).
  destruct s; [|discriminate].
  intros H. do 9 (apply andb_prop in H as [H ?]).
  repeat match goal with
         | Hd : is_digit _ = true |- _ => apply is_digit_not_slash in Hd
         | He : Ascii.eqb _ "-" = true |- _ => apply Ascii.eqb_eq in He; subst
         end.
  cbn [free_of]. repeat match goal with Hd : Ascii.eqb _ "/" = false |- _ => rewrite Hd; clear Hd end.
  reflexivity.
Qed.

(** A date without a slash has neither day nor year: the constructed date
    is invalid and [toISOString] throws. *)
Lemma sanitizeRow_without_slash (h : Host) (row : ParsedRow) :
  free_of "/" (Transaction_Date row) = true ->
  sanitizeRow h row = inl RangeError_InvalidTimeValue.
Proof.
  intros Hfree. unfold sanitizeRow.
  rewrite (split_free_of _ _ Hfree). reflexivity.
Qed.

Lemma trimStart_trimEnd (s : string) :
  trimStart (trimEnd (trimStart s)) = trimEnd (trimStart s).
Proof.
  induction s as [|c r IH]; [reflexivity|].
  cbn [trimStart]. destruct (is_ws c) eqn:Hc; [exact IH|].
  cbn [trimEnd]. destruct (trimEnd r); rewrite ?Hc; cbn [trimStart]; rewrite Hc; reflexivity.
Qed.

Lemma trimEnd_idempotent (s : string) : trimEnd (trimEnd s) = trimEnd s.
Proof.
  induction s as [|c r IH]; [reflexivity|].
  cbn [trimEnd]. destruct (trimEnd r) as [|c' r'] eqn:Hr.
  - destruct (is_ws c) eqn:Hc; [reflexivity|]. cbn [trimEnd]. rewrite Hc. reflexivity.
  - cbn [trimEnd] in *. rewrite IH. reflexivity.
Qed.

Lemma trim_idempotent (s : string) : trim (trim s) = trim s.
Proof.
  unfold trim. rewrite trimStart_trimEnd. apply trimEnd_idempotent.
Qed.

(** *** What the sanitizer returns is never accepted by the sanitizer *)

Lemma free_of_app (c : ascii) (a b : string) :
  free_of c (a +:+ b) = free_of c a && free_of c b.
Proof.
  induction a as [|x a IH]; [reflexivity|].
  change (free_of c (String x a +:+ b))
    with (negb (Ascii.eqb x c) && free_of c (a +:+ b)).
  rewrite IH, andb_assoc. reflexivity.
Qed.

Lemma digit_char_not_slash (n : Z) :
  Ascii.eqb (ascii_of_N (Z.to_N (48 + n mod 10))) "/" = false.
Proof.
  pose proof (Z.mod_pos_bound n 10 eq_refl) as Hb.
  assert (Hcases : n mod 10 = 0 \/ n mod 10 = 1 \/ n mod 10 = 2 \/ n mod 10 = 3
                   \/ n mod 10 = 4 \/ n mod 10 = 5 \/ n mod 10 = 6 \/ n mod 10 = 7
                   \/ n mod 10 = 8 \/ n mod 10 = 9) by lia.
  repeat destruct Hcases as [->|Hcases]; try rewrite Hcases; reflexivity.
Qed.

Lemma pad_free_of_slash (w : nat) : forall n, free_of "/" (pad w n) = true.
Proof.
  induction w as [|w IH]; intros n; [reflexivity|].
  cbn [pad]. rewrite free_of_app, IH. cbn [free_of].
  rewrite digit_char_not_slash. reflexivity.
Qed.

Lemma year_string_free_of_slash (y : Z) : free_of "/" (year_string y) = true.
Proof.
  unfold year_string.
  destruct ((0 <=? y) && (y <=? 9999)); [apply pad_free_of_slash|].
  rewrite free_of_app, pad_free_of_slash. destruct (y <? 0); reflexivity.
Qed.

Local Opaque pad year_string.

Lemma toISOString_free_of_slash (tv : option Z) (iso : string) :
  toISOString tv = Some iso -> free_of "/" iso = true.
Proof.
  unfold toISOString. destruct tv as [t|]; [|discriminate].
  destruct (civil_of_day _) as [[y m] d]. intros [= <-].
  repeat rewrite free_of_app.
  repeat rewrite pad_free_of_slash. rewrite year_string_free_of_slash. reflexivity.
Qed.

Local Transparent pad year_string.

Lemma first_split_free_of (c sep : ascii) (s : string) :
  free_of c s = true -> free_of c (first (split sep s)) = true.
Proof.
  induction s as [|a r IH]; [reflexivity|].
  cbn [free_of split]. intros [Ha Hr]%andb_prop.
  destruct (Ascii.eqb a sep); [reflexivity|].
  specialize (IH Hr). destruct (split sep r) as [|x xs]; cbn [first List.hd free_of] in *.
  - rewrite Ha. reflexivity.
  - rewrite Ha, IH. reflexivity.
Qed.

(** Whatever row the sanitizer returns, sanitizing that row raises. *)
Lemma sanitizeRow_twice_raises (h : Host) (row s : ParsedRow) :
  sanitizeRow h row = inr s ->
  sanitizeRow h s = inl RangeError_InvalidTimeValue.
Proof.
  intros Hs. apply sanitizeRow_without_slash.
  unfold sanitizeRow in Hs.
  destruct (toISOString _) as [iso|] eqn:Hiso; [|discriminate].
  injection Hs as <-. cbn [Transaction_Date].
  apply first_split_free_of. exact (toISOString_free_of_slash _ _ Hiso).
Qed.

(** C7, as the code has it: on an already-sanitized row, one whose
    Transaction Date is in the canonical form YYYY-MM-DD, the sanitizer
    does not return the row: it raises the RangeError of an invalid date,
    because it only reads slash-delimited month/day/year.  What is
    idempotent is the trimming of the seven other fields. *)
Theorem sanitizeRow_again_raises (h : Host) (row : ParsedRow) :
  canonical_date (Transaction_Date row) = true ->
  sanitizeRow h row = inl RangeError_InvalidTimeValue
  /\ forall col, trim (trim (field row col)) = trim (field row col).
Proof.
  intros Hcanon. split.
  - apply sanitizeRow_without_slash, canonical_date_free_of_slash, Hcanon.
  - intros col. apply trim_idempotent.
Qed.

Lemma sanitizeRow_again_raises_witness :
  canonical_date (Transaction_Date groceries) = true
  /\ sanitizeRow utcHost groceries = inl RangeError_InvalidTimeValue
  /\ forall col, trim (trim (field groceries col)) = trim (field groceries col).
Proof.
  assert (H : canonical_date (Transaction_Date groceries) = true) by reflexivity.
  split; [exact H|]. exact (sanitizeRow_again_raises utcHost groceries H).
Defined.

(** C7, as stated, fails: [groceries] is a sanitized row, the output of
    the sanitizer with a canonical date and trimmed fields, and sanitizing
    it again does not give it back. *)
Lemma sanitizeRow_not_idempotent :
  sanitizeRow utcHost (cleanFields "a" (record " 01/15/2024" "Grocery Store " "-54.32"))
  = inr groceries
  /\ canonical_date (Transaction_Date groceries) = true
  /\ (forall col, trim (field groceries col) = field groceries col)
  /\ sanitizeRow utcHost groceries <> inr groceries.
Proof.
  split; [vm_compute; reflexivity|].
  split; [reflexivity|].
  split; [intros []; vm_compute; reflexivity|].
  vm_compute. discriminate.
Qed.

(** ** Identifiers *)

Lemma get_replace_ne (k k' v : string) (o : JSObject.t) :
  k' <> k -> JSObject.get k (JSObject.replace k' v o) = JSObject.get k o.
Proof.
  intros Hne. induction o as [|[k1 v1] r IH]; [reflexivity|].
  cbn [JSObject.replace JSObject.get].
  destruct (String.eqb_spec k1 k') as [->|Hk1]; cbn [JSObject.get].
  - destruct (String.eqb_spec k' k); [contradiction|reflexivity].
  - rewrite IH. reflexivity.
Qed.

Lemma get_insert_index_ne (i : Z) (k k' v : string) (o : JSObject.t) :
  k' <> k -> JSObject.get k (JSObject.insert_index i k' v o) = JSObject.get k o.
Proof.
  intros Hne. apply String.eqb_neq in Hne.
  induction o as [|[k1 v1] r IH]; cbn [JSObject.insert_index JSObject.get].
  - rewrite Hne. reflexivity.
  - destruct (JSObject.array_index k1) as [j|]; [destruct (j <? i)|];
      cbn [JSObject.get]; rewrite ?IH, ?Hne; reflexivity.
Qed.

Lemma get_app_ne (k k' v : string) (o : JSObject.t) :
  k' <> k -> JSObject.get k (o ++ [(k', v)])%list = JSObject.get k o.
Proof.
  intros Hne. apply String.eqb_neq in Hne.
  induction o as [|[k1 v1] r IH]; cbn [app JSObject.get].
  - rewrite Hne. reflexivity.
  - rewrite IH. reflexivity.
Qed.

Lemma get_set_ne (k k' v : string) (o : JSObject.t) :
  k' <> k -> JSObject.get k (JSObject.set k' v o) = JSObject.get k o.
Proof.
  intros Hne. unfold JSObject.set.
  destruct (JSObject.get k' o); [apply get_replace_ne, Hne|].
  destruct (JSObject.array_index k'); [apply get_insert_index_ne|apply get_app_ne]; exact Hne.
Qed.

(** Spreading a record that has no property [k] leaves [k] as it was. *)
Lemma get_spread_absent (k : string) (src : JSObject.t) :
  forall dst, JSObject.get k src = None ->
              JSObject.get k (JSObject.spread src dst) = JSObject.get k dst.
Proof.
  unfold JSObject.spread.
  induction src as [|[k1 v1] r IH]; intros dst Habs; [reflexivity|].
  cbn [JSObject.get] in Habs. cbn [fold_left fst snd].
  destruct (String.eqb_spec k1 k) as [->|Hne]; [discriminate|].
  rewrite (IH _ Habs). apply get_set_ne, Hne.
Qed.

(** The decoder draws one identifier per record; a record without an
    [id] of its own leaves with the identifier drawn for it. *)
Lemma parseCSV_spec (h : Host) (data : list JSObject.t) :
  forall w, exists rows,
    parseCSV h data w
    = ({| store := store w; drawn := drawn w + length data |}, inr rows)
    /\ Forall2 (fun record row =>
                  JSObject.get "id" record = None ->
                  exists n, JSObject.get "id" row = Some (nanoid_at h n))
               data rows.
Proof.
  induction data as [|record rest IH]; intros w.
  - exists []. split; [|constructor].
    cbn. rewrite Nat.add_0_r. destruct w; reflexivity.
  - destruct (IH {| store := store w; drawn := S (drawn w) |}) as (rows & Hrows & Hids).
    exists (JSObject.spread record [("id", nanoid_at h (drawn w))] :: rows). split.
    + cbn [parseCSV]. unfold bind at 1, nanoid at 1.
      unfold bind at 1. rewrite Hrows. cbn [store drawn length ret].
      rewrite Nat.add_succ_r. reflexivity.
    + constructor; [|exact Hids].
      intros Habs. exists (drawn w). rewrite (get_spread_absent _ _ _ Habs). reflexivity.
Qed.


Lemma sanitizeRow_id (h : Host) (clean s : ParsedRow) :
  sanitizeRow h clean = inr s -> row_id s = row_id clean.
Proof.
  unfold sanitizeRow. destruct (toISOString _); [|discriminate].
  intros [= <-]. reflexivity.
Qed.

Lemma sanitizeAndCheck_id (h : Host) (clean s : ParsedRow) :
  sanitizeAndCheck h clean = inr s -> row_id s = row_id clean.
Proof.
  unfold sanitizeAndCheck.
  destruct (sanitizeRow h clean) as [e|s'] eqn:Hs; [discriminate|].
  destruct (checkColumns h s' REQUIRED_HEADERS); [discriminate|].
  intros [= <-]. exact (sanitizeRow_id _ _ _ Hs).
Qed.


Lemma validateAll_inv (h : Host) (row : JSObject.t) (rest : list JSObject.t)
    (w w' : World) (validated : list ParsedRow) :
  validateAll h (row :: rest) w = (w', inr validated) ->
  exists w1 i s tl,
    idOrFresh h row w = (w1, inr i)
    /\ sanitizeAndCheck h (cleanFields i row) = inr s
    /\ validateAll h rest w1 = (w', inr tl)
    /\ validated = s :: tl.
Proof.
  cbn [validateAll]. unfold cleanRow, bind, lift, ret.
  destruct (idOrFresh h row w) as [w1 [e|i]] eqn:Hi; [discriminate|].
  destruct (sanitizeAndCheck h (cleanFields i row)) as [e|s] eqn:Hs; [discriminate|].
  destruct (validateAll h rest w1) as [w2 [e|tl]] eqn:Hrest; [discriminate|].
  intros [= <- <-]. exists w1, i, s, tl. auto.
Qed.






Lemma utcHost_nanoid_nonempty : forall n, nanoid_at utcHost n <> "".
Proof. intros n. cbn. discriminate. Qed.










(** ** The date 13/45/2024 in any time zone *)

(** Local midnight of the day that [new Date(2024, 12, 45)] names:
    14 February 2025. *)
Lemma local_midnight_13_45_2024 :
  MakeDate
    (MakeDay (MakeFullYear (to_number (split "/" "13/45/2024" !! 2%nat)))
             (sub (to_number (split "/" "13/45/2024" !! 0%nat)) (Fin (Qmake 1 1)))
             (to_number (split "/" "13/45/2024" !! 1%nat))) 0
  = Some 1739491200000.
Proof. vm_compute. reflexivity. Qed.

(** Whatever the time zone, within a day of UTC, the sanitizer accepts
    the date 13/45/2024. *)
Lemma sanitizeRow_13_45_2024 (h : Host) (row : ParsedRow) :
  (forall t, Z.abs (LocalTZA h t) <= msPerDay) ->
  Transaction_Date row = "13/45/2024" ->
  exists s, sanitizeRow h row = inr s.
Proof.
  intros Hzone Hdate. unfold sanitizeRow. rewrite Hdate.
  cbv zeta. unfold Date_of_components. cbv zeta.
  rewrite local_midnight_13_45_2024.
  specialize (Hzone 1739491200000). unfold msPerDay in Hzone.
  unfold UTC, TimeClip.
  destruct (Z.ltb_spec 8640000000000000
              (Z.abs (1739491200000 - LocalTZA h 1739491200000))) as [Hbig|_]; [lia|].
  unfold toISOString. destruct (civil_of_day _) as [[y m] d]. eauto.
Qed.

(** * The storage gateway *)

Lemma with_store_with_store (s s' : gmap string DBTransaction) (w : World) :
  with_store s (with_store s' w) = with_store s w.
Proof. reflexivity. Qed.

(** Adding a row succeeds exactly when its identifier is not in the store.
    The record can then be read back under that identifier, in the shape
    [convertToDBFormat] gives it, every other key is as before and the
    count goes up by one.  Otherwise the add fails with a ConstraintError
    and the world is as before. *)
Theorem addTransaction_spec (row : ParsedRow) (w : World) :
  (store w !! row_id row = None
   /\ exists w',
        addTransaction row w = (w', inr tt)
        /\ getTransaction (row_id row) w' = (w', inr (convertToDBFormat row))
        /\ (forall k, k <> row_id row -> store w' !! k = store w !! k)
        /\ (getTransactionCount w').2 = inr (S (size (store w))))
  \/ (is_Some (store w !! row_id row)
      /\ addTransaction row w = (w, inl ConstraintError)).
Proof.
  unfold addTransaction. cbn [convertToDBFormat db_id].
  destruct (store w !! row_id row) as [old|] eqn:Hlook.
  - right. split; [eauto|reflexivity].
  - left. split; [reflexivity|].
    eexists. split; [reflexivity|].
    unfold getTransaction, getTransactionCount. cbn [store with_store fst snd].
    rewrite lookup_insert_eq. split; [reflexivity|]. split.
    + intros k Hk. rewrite lookup_insert_ne; [reflexivity|congruence].
    + rewrite (map_size_insert_None _ _ _ Hlook). reflexivity.
Qed.

(** *** The bulk insert *)

Lemma addAll_Some (rows : list ParsedRow) :
  forall s s',
    addAll rows s = Some s' ->
    NoDup (map row_id rows)
    /\ (forall r, r ∈ rows -> s !! row_id r = None)
    /\ (forall r, r ∈ rows -> s' !! row_id r = Some (convertToDBFormat r))
    /\ (forall k, k ∉ map row_id rows -> s' !! k = s !! k)
    /\ size s' = (size s + length rows)%nat.
Proof.
  induction rows as [|row rest IH]; intros s s' Hadd.
  - injection Hadd as <-. cbn. repeat split.
    + constructor.
    + intros r Hr. inversion Hr.
    + intros r Hr. inversion Hr.
    + lia.
  - cbn [addAll convertToDBFormat db_id] in Hadd.
    destruct (s !! row_id row) eqn:Hlook; [discriminate|].
    apply IH in Hadd as (Hnd & Hfree & Hin & Hout & Hsize).
    assert (Hnotin : row_id row ∉ map row_id rest).
    { intros (r & Hid & Hr)%list_elem_of_fmap.
      specialize (Hfree r Hr). rewrite <- Hid, lookup_insert_eq in Hfree. discriminate. }
    repeat split.
    + cbn [map]. apply NoDup_cons. split; assumption.
    + intros r [->|Hr]%elem_of_cons; [exact Hlook|].
      specialize (Hfree r Hr).
      destruct (decide (row_id row = row_id r)) as [Heq|Hne].
      * rewrite <- Heq, lookup_insert_eq in Hfree. discriminate.
      * rewrite lookup_insert_ne in Hfree by exact Hne. exact Hfree.
    + intros r [->|Hr]%elem_of_cons; [|exact (Hin r Hr)].
      rewrite (Hout _ Hnotin). apply lookup_insert_eq.
    + intros k Hk. cbn [map] in Hk. apply not_elem_of_cons in Hk as [Hk1 Hk2].
      rewrite (Hout k Hk2). apply lookup_insert_ne. congruence.
    + rewrite Hsize, (map_size_insert_None _ _ _ Hlook). cbn [length]. lia.
Qed.

Lemma addAll_is_Some (rows : list ParsedRow) :
  forall s,
    NoDup (map row_id rows) ->
    (forall r, r ∈ rows -> s !! row_id r = None) ->
    is_Some (addAll rows s).
Proof.
  induction rows as [|row rest IH]; intros s Hnd Hfree; [cbn; eauto|].
  cbn [addAll convertToDBFormat db_id].
  rewrite (Hfree row) by apply list_elem_of_here.
  cbn [map] in Hnd. apply NoDup_cons in Hnd as [Hnotin Hnd].
  apply IH; [exact Hnd|].
  intros r Hr. rewrite lookup_insert_ne.
  - apply Hfree. apply list_elem_of_further, Hr.
  - intros Heq. apply Hnotin. rewrite Heq. apply list_elem_of_fmap. eauto.
Qed.

(** The bulk insert succeeds exactly when the identifiers of the rows are
    pairwise distinct and none is in the store; every row can then be
    found under its identifier, the other keys are as before and the
    count grows by the number of rows.  In every other case it fails with
    a ConstraintError and the world is as before. *)
Theorem addTransactions_spec (rows : list ParsedRow) (w : World) :
  (NoDup (map row_id rows) /\ (forall r, r ∈ rows -> store w !! row_id r = None)
   /\ exists w',
        addTransactions rows w = (w', inr tt)
        /\ (forall r, r ∈ rows -> store w' !! row_id r = Some (convertToDBFormat r))
        /\ (forall k, k ∉ map row_id rows -> store w' !! k = store w !! k)
        /\ size (store w') = (size (store w) + length rows)%nat)
  \/ (~ (NoDup (map row_id rows) /\ forall r, r ∈ rows -> store w !! row_id r = None)
      /\ addTransactions rows w = (w, inl ConstraintError)).
Proof.
  unfold addTransactions.
  destruct (addAll rows (store w)) as [s'|] eqn:Hadd.
  - left. apply addAll_Some in Hadd as (Hnd & Hfree & Hin & Hout & Hsize).
    split; [exact Hnd|]. split; [exact Hfree|].
    eexists. split; [reflexivity|]. cbn [store with_store]. auto.
  - right. split; [|reflexivity].
    intros [Hnd Hfree]. destruct (addAll_is_Some rows (store w) Hnd Hfree) as [s' Hs'].
    congruence.
Qed.

(** Storing row by row succeeds exactly when the adds, run on one view of
    the store, all succeed, and ends in the store they produce. *)
Lemma storeAll_as_addAll (rows : list ParsedRow) :
  forall w w',
    storeAll rows w = (w', inr tt)
    <-> exists s', addAll rows (store w) = Some s' /\ w' = with_store s' w.
Proof.
  induction rows as [|row rest IH]; intros w w'.
  - cbn. split.
    + intros [= <-]. exists (store w). rewrite with_store_same. auto.
    + intros (s' & [= <-] & ->). rewrite with_store_same. reflexivity.
  - cbn [storeAll addAll]. unfold bind, rethrow, addTransaction.
    destruct (store w !! db_id (convertToDBFormat row)).
    + split; [discriminate|]. intros (s' & Hs' & _). discriminate.
    + rewrite IH. cbn [store with_store]. split; intros (s' & Hs' & ->); eauto.
Qed.

(** Storing row by row, as [validateRows] does, and the bulk insert agree
    whenever either of them succeeds: they differ only in what they leave
    behind on failure. *)
Theorem storeAll_success_iff_addTransactions (rows : list ParsedRow) (w w' : World) :
  storeAll rows w = (w', inr tt) <-> addTransactions rows w = (w', inr tt).
Proof.
  rewrite storeAll_as_addAll. unfold addTransactions.
  destruct (addAll rows (store w)) as [s|]; split.
  - intros (s' & [= <-] & ->). reflexivity.
  - intros [= <-]. eauto.
  - intros (s' & Hs' & _). discriminate.
  - discriminate.
Qed.

(** *** Update and delete *)

(** Updating a row whose identifier is not in the store fails with "does
    not exist" and changes nothing; otherwise the record under that
    identifier is replaced by the new one, and neither the other records
    nor the count change. *)
Theorem updateTransaction_spec (row : ParsedRow) (w : World) :
  (store w !! row_id row = None
   /\ updateTransaction row w = (w, inl (NotFound (row_id row))))
  \/ (is_Some (store w !! row_id row)
      /\ exists w',
           updateTransaction row w = (w', inr tt)
           /\ getTransaction (row_id row) w' = (w', inr (convertToDBFormat row))
           /\ (forall k, k <> row_id row -> store w' !! k = store w !! k)
           /\ (getTransactionCount w').2 = (getTransactionCount w).2).
Proof.
  unfold updateTransaction.
  destruct (store w !! row_id row) as [old|] eqn:Hlook.
  - right. split; [eauto|]. eexists. split; [reflexivity|].
    unfold getTransaction, getTransactionCount.
    cbn [store with_store fst snd convertToDBFormat db_id].
    rewrite lookup_insert_eq. split; [reflexivity|]. split.
    + intros k Hk. rewrite lookup_insert_ne; [reflexivity|congruence].
    + rewrite map_size_insert_Some; [reflexivity|]. rewrite Hlook. eauto.
  - left. split; reflexivity.
Qed.

(** Deleting an identifier that is in the store removes that record and
    no other: it can no longer be read, every other key is as before and
    the count goes down by one. *)
Theorem deleteTransaction_present (id : string) (r : DBTransaction) (w : World) :
  store w !! id = Some r ->
  exists w',
    deleteTransaction id w = (w', inr tt)
    /\ getTransaction id w' = (w', inl (NotFound id))
    /\ (forall k, k <> id -> store w' !! k = store w !! k)
    /\ (getTransactionCount w).2 = inr (S (size (store w'))).
Proof.
  intros Hlook. eexists. split; [reflexivity|].
  unfold getTransaction, getTransactionCount. cbn [store with_store fst snd].
  rewrite lookup_delete_eq. split; [reflexivity|]. split.
  - intros k Hk. apply lookup_delete_ne. congruence.
  - rewrite map_size_delete_Some by eauto.
    assert (size (store w) <> 0%nat).
    { intros Hz%map_size_empty_inv. rewrite Hz, lookup_empty in Hlook. discriminate. }
    f_equal. lia.
Qed.

Lemma deleteTransaction_present_witness :
  store oneRecordWorld !! "a" = Some (convertToDBFormat groceries)
  /\ exists w',
       deleteTransaction "a" oneRecordWorld = (w', inr tt)
       /\ getTransaction "a" w' = (w', inl (NotFound "a"))
       /\ (forall k, k <> "a" -> store w' !! k = store oneRecordWorld !! k)
       /\ (getTransactionCount oneRecordWorld).2 = inr (S (size (store w'))).
Proof.
  assert (H : store oneRecordWorld !! "a" = Some (convertToDBFormat groceries))
    by (vm_compute; reflexivity).
  split; [exact H|]. exact (deleteTransaction_present "a" _ oneRecordWorld H).
Defined.

(** Adding a row with a new identifier and deleting that identifier
    again gives back the world as it was. *)
Theorem add_then_delete (row : ParsedRow) (w : World) :
  store w !! row_id row = None ->
  (do _ <- addTransaction row; deleteTransaction (row_id row)) w = (w, inr tt).
Proof.
  intros Hnew. unfold bind, addTransaction, deleteTransaction.
  cbn [convertToDBFormat db_id]. rewrite Hnew.
  cbn [store with_store]. rewrite (delete_insert_id _ _ _ Hnew).
  rewrite with_store_with_store, with_store_same. reflexivity.
Qed.

Lemma add_then_delete_witness :
  store oneRecordWorld !! row_id (with_id "b" rolledOver) = None
  /\ (do _ <- addTransaction (with_id "b" rolledOver); deleteTransaction "b") oneRecordWorld
     = (oneRecordWorld, inr tt).
Proof.
  assert (H : store oneRecordWorld !! row_id (with_id "b" rolledOver) = None)
    by (vm_compute; reflexivity).
  split; [exact H|].
  exact (add_then_delete (with_id "b" rolledOver) oneRecordWorld H).
Defined.

(** *** The key path *)

Lemma keyed_insert (s : gmap string DBTransaction) (r : DBTransaction) :
  keyed s -> keyed (<[db_id r := r]> s).
Proof.
  intros Hk k r'. rewrite lookup_insert. case_decide as Heq.
  - intros [= <-]. exact Heq.
  - apply Hk.
Qed.

Lemma keyed_addAll (rows : list ParsedRow) :
  forall s s', keyed s -> addAll rows s = Some s' -> keyed s'.
Proof.
  induction rows as [|row rest IH]; intros s s' Hk Hadd.
  - injection Hadd as <-. exact Hk.
  - cbn [addAll] in Hadd. destruct (s !! _); [discriminate|].
    exact (IH _ _ (keyed_insert _ _ Hk) Hadd).
Qed.

Lemma keyed_storeAll (rows : list ParsedRow) :
  forall w, keyed (store w) -> keyed (store (storeAll rows w).1).
Proof.
  induction rows as [|row rest IH]; intros w Hk; [exact Hk|].
  cbn [storeAll]. unfold bind, rethrow, addTransaction.
  destruct (store w !! _); [exact Hk|].
  apply IH. cbn [store with_store]. apply keyed_insert, Hk.
Qed.

(** Every record is stored under its own [id], and every write of the
    gateway, and so every import, keeps it that way. *)
Theorem gateway_keeps_key_path (w : World) :
  keyed (store w) ->
  (forall row, keyed (store (addTransaction row w).1))
  /\ (forall rows, keyed (store (addTransactions rows w).1))
  /\ (forall row, keyed (store (updateTransaction row w).1))
  /\ (forall id, keyed (store (deleteTransaction id w).1))
  /\ keyed (store (clearTransactions w).1)
  /\ (forall h rows, keyed (store (validateRows h rows w).1)).
Proof.
  intros Hk. repeat split.
  - intros row. unfold addTransaction.
    destruct (store w !! _); [exact Hk|]. apply keyed_insert, Hk.
  - intros rows. unfold addTransactions.
    destruct (addAll rows (store w)) as [s'|] eqn:Hadd; [|exact Hk].
    exact (keyed_addAll _ _ _ Hk Hadd).
  - intros row. unfold updateTransaction.
    destruct (store w !! _); [|exact Hk]. apply keyed_insert, Hk.
  - intros id k r. cbn [deleteTransaction store with_store fst].
    intros Hlook%lookup_delete_Some. apply Hk, Hlook.
  - intros k r. cbn. rewrite lookup_empty. discriminate.
  - intros h rows. unfold validateRows.
    destruct rows as [|row0 rest]; [exact Hk|].
    destruct (negb _ || negb _); [exact Hk|].
    pose proof (validateAll_store h (row0 :: rest) w) as Hs.
    unfold bind at 1.
    destruct (validateAll h (row0 :: rest) w) as [w1 [e|v]]; cbn [fst] in Hs.
    + cbn [fst]. rewrite Hs. exact Hk.
    + unfold bind. rewrite <- Hs in Hk.
      pose proof (keyed_storeAll v w1 Hk) as Hk'.
      destruct (storeAll v w1) as [w2 [e|[]]]; exact Hk'.
Qed.

Lemma gateway_keeps_key_path_witness :
  keyed (store oneRecordWorld)
  /\ keyed (store (validateRows utcHost duplicateBatch oneRecordWorld).1).
Proof.
  assert (H : keyed (store oneRecordWorld)).
  { intros k r. unfold oneRecordWorld. cbn [store].
    intros [<- <-]%lookup_singleton_Some. reflexivity. }
  split; [exact H|].
  apply (gateway_keeps_key_path oneRecordWorld H).
Defined.

(** *** Reads *)

Lemma compare_not_Gt_trans (x : string) :
  forall y z, String.compare x y <> Gt -> String.compare y z <> Gt ->
              String.compare x z <> Gt.
Proof.
  induction x as [|a x IH]; intros [|b y] [|c z]; cbn [String.compare];
    try congruence.
  unfold Ascii.compare.
  destruct (N.compare_spec (N_of_ascii a) (N_of_ascii b)) as [Hab|Hab|Hab];
    destruct (N.compare_spec (N_of_ascii b) (N_of_ascii c)) as [Hbc|Hbc|Hbc];
    try congruence.
  - rewrite Hab, Hbc, N.compare_refl. apply IH.
  - intros _ _. rewrite Hab. apply N.compare_lt_iff in Hbc. rewrite Hbc. discriminate.
  - intros _ _. rewrite <- Hbc. apply N.compare_lt_iff in Hab. rewrite Hab. discriminate.
  - intros _ _. pose proof (N.lt_trans _ _ _ Hab Hbc) as Hac.
    apply N.compare_lt_iff in Hac. rewrite Hac. discriminate.
Qed.

Lemma leb_not_Gt (x y : string) : String.leb x y = true <-> String.compare x y <> Gt.
Proof. unfold String.leb. destruct (String.compare x y); split; congruence. Qed.

#[local] Instance key_le_total : Total key_le.
Proof. intros a b. unfold key_le. apply String.leb_total. Qed.

#[local] Instance key_le_trans : Transitive key_le.
Proof.
  intros a b c. unfold key_le. rewrite !leb_not_Gt. apply compare_not_Gt_trans.
Qed.

Lemma sorted_records (l : list (string * DBTransaction)) :
  Forall (fun p => db_id (snd p) = fst p) l ->
  StronglySorted key_le l -> StronglySorted id_le (map snd l).
Proof.
  intros Hkeys Hsorted. induction Hsorted as [|p l Hs IH Hall]; [constructor|].
  apply Forall_cons in Hkeys as [Hp Hl].
  cbn [map]. constructor; [exact (IH Hl)|].
  apply Forall_fmap. rewrite Forall_forall in Hall, Hl. apply Forall_forall.
  intros q Hq. unfold id_le. cbn. rewrite Hp, (Hl q Hq). exact (Hall q Hq).
Qed.

Lemma records_elem_of (s : gmap string DBTransaction) (r : DBTransaction) :
  r ∈ records s <-> exists k, s !! k = Some r.
Proof.
  unfold records. change (map snd ?l) with (snd <$> l).
  rewrite list_elem_of_fmap. split.
  - intros ([k r'] & -> & Hin). rewrite merge_sort_Permutation in Hin.
    apply elem_of_map_to_list in Hin. eauto.
  - intros [k Hk]. exists (k, r). split; [reflexivity|].
    rewrite merge_sort_Permutation. apply elem_of_map_to_list, Hk.
Qed.

(** Reading everything returns the stored records, each one once: a
    record is listed exactly when it is stored under some key, there are
    as many as [count()] says, and they come in ascending order of [id]. *)
Theorem getAllTransactions_spec (w : World) :
  exists l,
    getAllTransactions w = (w, inr l)
    /\ l ≡ₚ map snd (map_to_list (store w))
    /\ (forall r, r ∈ l <-> exists k, store w !! k = Some r)
    /\ (getTransactionCount w).2 = inr (length l)
    /\ (keyed (store w) -> StronglySorted id_le l).
Proof.
  exists (records (store w)). split; [reflexivity|]. split; [|split; [|split]].
  - unfold records. rewrite merge_sort_Permutation. reflexivity.
  - apply records_elem_of.
  - unfold records. cbn. rewrite length_map.
    rewrite merge_sort_Permutation, length_map_to_list. reflexivity.
  - intros Hk. apply sorted_records.
    + apply Forall_forall. intros [k r]. rewrite merge_sort_Permutation.
      intros Hin%elem_of_map_to_list. exact (Hk k r Hin).
    + apply StronglySorted_merge_sort; apply _.
Qed.

(** The two index lookups return the stored records whose account number,
    respectively transaction date, is exactly the value asked for, in the
    order of [getAllTransactions]. *)
Theorem index_lookups_spec (w : World) (value : string) :
  (exists l,
      getByAccountNumber value w = (w, inr l)
      /\ (forall r, r ∈ l <-> (exists k, store w !! k = Some r) /\ accountNumber r = value)
      /\ l `sublist_of` records (store w))
  /\ (exists l,
         getByTransactionDate value w = (w, inr l)
         /\ (forall r, r ∈ l <-> (exists k, store w !! k = Some r) /\ transactionDate r = value)
         /\ l `sublist_of` records (store w)).
Proof.
  split; eexists; (split; [reflexivity|]); split;
    try apply sublist_filter; intros r;
    rewrite list_elem_of_filter, records_elem_of; tauto.
Qed.

(** * The sanitizer *)

(** ** What [trim] removes *)

Lemma append_cons (c : ascii) (a b : string) :
  String c a +:+ b = String c (a +:+ b).
Proof. reflexivity. Qed.

Lemma trimStart_spec (s : string) :
  exists pre, s = pre +:+ trimStart s /\ all_ws pre = true
              /\ starts_ws (trimStart s) = false.
Proof.
  induction s as [|c r (pre & Hs & Hpre & Hstart)].
  - exists "". auto.
  - cbn [trimStart]. destruct (is_ws c) eqn:Hc.
    + exists (String c pre). rewrite append_cons, <- Hs.
      cbn [all_ws]. rewrite Hc, Hpre. auto.
    + exists "". cbn [starts_ws all_ws]. auto.
Qed.

Lemma trimEnd_spec (s : string) :
  exists post, s = trimEnd s +:+ post /\ all_ws post = true
               /\ ends_ws (trimEnd s) = false.
Proof.
  induction s as [|c r (post & Hs & Hpost & Hend)].
  - exists "". auto.
  - cbn [trimEnd]. destruct (trimEnd r) as [|c' r'] eqn:Hr.
    + change ("" +:+ post) with post in Hs. subst r.
      destruct (is_ws c) eqn:Hc.
      * exists (String c post). cbn [all_ws]. rewrite Hc, Hpost. auto.
      * exists post. cbn [ends_ws]. auto.
    + exists post. rewrite append_cons, <- Hs. auto.
Qed.

Lemma trimEnd_keeps_start (s : string) :
  starts_ws s = false -> starts_ws (trimEnd s) = false.
Proof.
  destruct s as [|c r]; [reflexivity|]. cbn [starts_ws trimEnd]. intros Hc.
  destruct (trimEnd r); [rewrite Hc|]; cbn; auto.
Qed.

Lemma trim_no_outer_ws (s : string) :
  starts_ws (trim s) = false /\ ends_ws (trim s) = false.
Proof.
  destruct (trimStart_spec s) as (_ & _ & _ & Hstart).
  destruct (trimEnd_spec (trimStart s)) as (_ & _ & _ & Hend).
  unfold trim. auto using trimEnd_keeps_start.
Qed.

(** [trim] takes away a run of white space at the front and one at the
    back and nothing else, and what it leaves neither begins nor ends
    with white space. *)
Theorem trim_spec (s : string) :
  exists pre post,
    s = pre +:+ trim s +:+ post
    /\ all_ws pre = true /\ all_ws post = true
    /\ starts_ws (trim s) = false /\ ends_ws (trim s) = false.
Proof.
  destruct (trimStart_spec s) as (pre & Hs & Hpre & Hstart).
  destruct (trimEnd_spec (trimStart s)) as (post & Ht & Hpost & Hend).
  exists pre, post. unfold trim.
  split; [rewrite <- Ht; exact Hs|].
  auto using trimEnd_keeps_start.
Qed.

(** A string without white space at either end is left as it is. *)
Lemma trimEnd_fixed (s : string) : ends_ws s = false -> trimEnd s = s.
Proof.
  induction s as [|c r IH]; [reflexivity|]. cbn [ends_ws trimEnd].
  destruct r as [|c' r'].
  - intros ->. reflexivity.
  - intros Hr. rewrite (IH Hr). reflexivity.
Qed.

Theorem trim_fixed_iff (s : string) :
  trim s = s <-> starts_ws s = false /\ ends_ws s = false.
Proof.
  split.
  - intros <-. apply trim_no_outer_ws.
  - intros [Hstart Hend]. unfold trim.
    assert (trimStart s = s) as ->.
    { destruct s as [|c r]; [reflexivity|]. cbn in *. rewrite Hstart. reflexivity. }
    apply trimEnd_fixed, Hend.
Qed.

(** ** [Number] and white space *)

Lemma Number_trim (s : string) : Number (trim s) = Number s.
Proof. unfold Number. rewrite trim_idempotent. reflexivity. Qed.

Lemma trim_empty_Number (s : string) : trim s = "" -> Number s = Fin (Qmake 0 1).
Proof. unfold Number. intros ->. reflexivity. Qed.

(** Trimming a value never changes what the number rule and the string
    rule say about it, whatever [allowEmpty] is. *)
Theorem checkType_trim (h : Host) (value : string) (allow_empty : bool) :
  checkType h (trim value) TNumber allow_empty = checkType h value TNumber allow_empty
  /\ checkType h (trim value) TString allow_empty = checkType h value TString allow_empty.
Proof.
  unfold checkType. split.
  - rewrite Number_trim.
    destruct allow_empty; cbn [andb]; [|reflexivity].
    destruct (String.eqb_spec (trim value) "") as [Hempty|_].
    + rewrite (trim_empty_Number _ Hempty). destruct (String.eqb value ""); reflexivity.
    + destruct (String.eqb_spec value "") as [->|_]; reflexivity.
  - destruct (allow_empty && String.eqb (trim value) ""),
             (allow_empty && String.eqb value ""); reflexivity.
Qed.

(** ** Dates the sanitizer cannot read *)

Lemma length_split (sep : ascii) (s : string) :
  length (split sep s) = S (occurrences sep s).
Proof.
  induction s as [|c r IH]; [reflexivity|].
  cbn [split occurrences]. destruct (Ascii.eqb c sep).
  - cbn [length]. rewrite IH. reflexivity.
  - destruct (split sep r); cbn [length] in *; [discriminate|]. exact IH.
Qed.

(** A Transaction Date with fewer than two slashes, the empty date and
    dates in ISO form among them, has no year component: the date built
    from it is invalid and the sanitizer raises a RangeError. *)
Theorem sanitizeRow_needs_two_slashes (h : Host) (row : ParsedRow) :
  (occurrences "/" (Transaction_Date row) < 2)%nat ->
  sanitizeRow h row = inl RangeError_InvalidTimeValue.
Proof.
  intros Hfew. unfold sanitizeRow.
  assert (Hyear : split "/" (Transaction_Date row) !! 2%nat = None).
  { apply lookup_ge_None. rewrite length_split. lia. }
  rewrite Hyear. reflexivity.
Qed.

Lemma sanitizeRow_needs_two_slashes_witness :
  (occurrences "/" (Transaction_Date (with_id "a" (cleanFields "a" (record "01/2024" "Rent" "-900")))) < 2)%nat
  /\ sanitizeRow utcHost (with_id "a" (cleanFields "a" (record "01/2024" "Rent" "-900")))
     = inl RangeError_InvalidTimeValue.
Proof.
  assert (H : (occurrences "/" (Transaction_Date
                 (with_id "a" (cleanFields "a" (record "01/2024" "Rent" "-900")))) < 2)%nat)
    by (vm_compute; lia).
  split; [exact H|]. exact (sanitizeRow_needs_two_slashes utcHost _ H).
Defined.

(** ** What the sanitizer returns *)

Lemma sanitizeRow_fields (h : Host) (row s : ParsedRow) :
  sanitizeRow h row = inr s ->
  forall col, col <> ColTransactionDate -> field s col = trim (field row col).
Proof.
  unfold sanitizeRow. destruct (toISOString _) as [iso|]; [|discriminate].
  intros [= <-] [] Hne; try reflexivity. congruence.
Qed.

(** A row the sanitizer returns has the identifier of its input, each of
    its seven text fields is the input's field trimmed, its date has no
    slash, and sanitizing it once more raises. *)
Theorem sanitizeRow_output (h : Host) (row s : ParsedRow) :
  sanitizeRow h row = inr s ->
  row_id s = row_id row
  /\ (forall col, col <> ColTransactionDate -> field s col = trim (field row col))
  /\ occurrences "/" (Transaction_Date s) = 0%nat
  /\ sanitizeRow h s = inl RangeError_InvalidTimeValue.
Proof.
  intros Hs. split; [exact (sanitizeRow_id _ _ _ Hs)|].
  pose proof (sanitizeRow_twice_raises _ _ _ Hs) as Htwice.
  split; [exact (sanitizeRow_fields _ _ _ Hs)|].
  unfold sanitizeRow in Hs.
  destruct (toISOString _) as [iso|] eqn:Hiso; [|discriminate].
  injection Hs as <-. split; [|exact Htwice].
  - cbn [Transaction_Date].
    pose proof (first_split_free_of "/" "T" iso (toISOString_free_of_slash _ _ Hiso)) as Hfree.
    clear -Hfree. induction (first (split "T" iso)) as [|c r IH]; [reflexivity|].
    cbn [free_of occurrences] in *. apply andb_prop in Hfree as [Hc Hr].
    apply negb_true_iff in Hc. rewrite Hc, (IH Hr). reflexivity.
Qed.

Lemma sanitizeRow_output_witness :
  sanitizeRow utcHost (cleanFields "a" (record " 01/15/2024" "Grocery Store " "-54.32"))
  = inr groceries
  /\ row_id groceries = "a"
  /\ sanitizeRow utcHost groceries = inl RangeError_InvalidTimeValue.
Proof.
  assert (H : sanitizeRow utcHost
                (cleanFields "a" (record " 01/15/2024" "Grocery Store " "-54.32"))
              = inr groceries) by (vm_compute; reflexivity).
  split; [exact H|].
  destruct (sanitizeRow_output utcHost _ _ H) as (Hid & _ & _ & Htwice).
  split; [exact Hid|exact Htwice].
Defined.

(** * The import as a whole *)

(** ** Which errors an import can end in *)

Lemma checkType_string (h : Host) (value : string) (allow_empty : bool) :
  checkType h value TString allow_empty = true.
Proof. unfold checkType. destruct (allow_empty && String.eqb value ""); reflexivity. Qed.

(** The columns whose rule is not of type [string]. *)
Lemma checkColumns_error (h : Host) (row : ParsedRow) (cols : list Column) (e : JSError) :
  checkColumns h row cols = inl e ->
  exists col, col ∈ cols /\ e = InvalidType (colName col) (field row col)
              /\ (col = ColTransactionDate \/ col = ColCAD \/ col = ColUSD).
Proof.
  induction cols as [|col rest IH]; [discriminate|].
  cbn [checkColumns].
  destruct (checkType h (field row col) _ _) eqn:Hcheck.
  - intros (c & Hin & He & Hc)%IH. exists c. split; [apply list_elem_of_further, Hin|auto].
  - intros [= <-]. exists col. split; [apply list_elem_of_here|]. split; [reflexivity|].
    destruct col; cbn [COLUMN_RULES rule_type allowEmpty] in Hcheck; auto;
      rewrite checkType_string in Hcheck; discriminate.
Qed.

Lemma sanitizeAndCheck_error (h : Host) (clean : ParsedRow) (e : JSError) :
  sanitizeAndCheck h clean = inl e ->
  e = RangeError_InvalidTimeValue
  \/ exists col value, e = InvalidType (colName col) value
                       /\ (col = ColTransactionDate \/ col = ColCAD \/ col = ColUSD).
Proof.
  unfold sanitizeAndCheck, sanitizeRow.
  destruct (toISOString _) as [iso|]; [|intros [= <-]; auto].
  destruct (checkColumns h _ REQUIRED_HEADERS) as [e'|] eqn:Hc; [|discriminate].
  intros [= <-]. right.
  destruct (checkColumns_error _ _ _ _ Hc) as (col & _ & -> & Hcol). eauto.
Qed.

Lemma validateAll_error (h : Host) (rows : list JSObject.t) :
  forall w w' e,
    validateAll h rows w = (w', inl e) ->
    e = RangeError_InvalidTimeValue
    \/ exists col value, e = InvalidType (colName col) value
                         /\ (col = ColTransactionDate \/ col = ColCAD \/ col = ColUSD).
Proof.
  induction rows as [|row rest IH]; intros w w' e; [discriminate|].
  cbn [validateAll]. unfold cleanRow, bind, lift, ret.
  destruct (idOrFresh_total h row w) as (w1 & i & -> & _).
  destruct (sanitizeAndCheck h (cleanFields i row)) as [e1|s] eqn:Hs.
  - intros [= _ <-]. exact (sanitizeAndCheck_error _ _ _ Hs).
  - destruct (validateAll h rest w1) as [w2 [e2|v]] eqn:Hrest; [|discriminate].
    intros [= _ <-]. exact (IH _ _ _ Hrest).
Qed.

(** When storing fails, the rows before the failing one have been
    stored, and the identifier of the failing one is in the store. *)
Lemma storeAll_error (rows : list ParsedRow) :
  forall w w' e,
    storeAll rows w = (w', inl e) ->
    e = FailedToStore ConstraintError
    /\ exists stored failed rest,
         rows = (stored ++ failed :: rest)%list
         /\ storeAll stored w = (w', inr tt)
         /\ is_Some (store w' !! row_id failed).
Proof.
  induction rows as [|row rest IH]; intros w w' e; [discriminate|].
  cbn [storeAll]. unfold bind at 1, rethrow, addTransaction.
  cbn [convertToDBFormat db_id].
  destruct (store w !! row_id row) as [old|] eqn:Hlook.
  - intros [= <- <-]. split; [reflexivity|].
    exists [], row, rest. rewrite Hlook. eauto.
  - intros (He & stored & failed & tl & -> & Hstored & Hfailed)%IH.
    split; [exact He|]. exists (row :: stored), failed, tl.
    split; [reflexivity|]. split; [|exact Hfailed].
    cbn [storeAll]. unfold bind at 1, rethrow, addTransaction.
    cbn [convertToDBFormat db_id]. rewrite Hlook. exact Hstored.
Qed.

(** An import ends in one of five ways only.  The errors are "No data to
    validate", for the empty batch; "Invalid headers", when the keys of
    the first row are not the required header; the RangeError of an
    unreadable date; "Invalid type" naming Transaction Date, CAD$ or USD$
    and never one of the five text columns; and "Failed to store
    transaction" wrapping a ConstraintError.  Only the last one can leave
    the store changed. *)
Theorem validateRows_errors (h : Host) (rows : list JSObject.t) (w w' : World) (e : JSError) :
  validateRows h rows w = (w', inl e) ->
  (e = NoDataToValidate /\ rows = [] /\ w' = w)
  \/ (e = InvalidHeaders /\ w' = w
      /\ exists row0 rest, rows = row0 :: rest
                           /\ headerKeys row0 <> map colName REQUIRED_HEADERS)
  \/ (e = RangeError_InvalidTimeValue /\ store w' = store w)
  \/ ((exists col value, e = InvalidType (colName col) value
                         /\ (col = ColTransactionDate \/ col = ColCAD \/ col = ColUSD))
      /\ store w' = store w)
  \/ e = FailedToStore ConstraintError.
Proof.
  unfold validateRows. destruct rows as [|row0 rest].
  - intros [= <- <-]. auto.
  - destruct (Nat.eqb (length (headerKeys row0)) (length REQUIRED_HEADERS)
              && every_header (headerKeys row0)) eqn:Hok.
    + rewrite <- negb_andb, Hok. cbn [negb].
      pose proof (validateAll_store h (row0 :: rest) w) as Hs.
      unfold bind at 1.
      destruct (validateAll h (row0 :: rest) w) as [w1 [e1|v]] eqn:Hv; cbn [fst] in Hs.
      * intros [= <- <-]. right. right.
        destruct (validateAll_error _ _ _ _ _ Hv) as [->|Htype]; auto.
      * unfold bind.
        destruct (storeAll v w1) as [w2 [e2|[]]] eqn:Hst; [|discriminate].
        intros [= <- <-]. do 4 right. exact (proj1 (storeAll_error _ _ _ _ Hst)).
    + rewrite <- negb_andb, Hok. intros [= <- <-]. right. left.
      split; [reflexivity|]. split; [reflexivity|]. exists row0, rest.
      split; [reflexivity|]. intros Heq. apply every_header_eq in Heq. congruence.
Qed.

Lemma validateRows_errors_witness :
  validateRows utcHost [parsed "a" "01/15/2024" "Grocery Store" "1,200.00"] emptyWorld
  = ({| store := ∅; drawn := 0 |}, inl (InvalidType "CAD$" "1,200.00"))
  /\ exists col value,
       InvalidType "CAD$" "1,200.00" = InvalidType (colName col) value
       /\ (col = ColTransactionDate \/ col = ColCAD \/ col = ColUSD).
Proof.
  assert (H : validateRows utcHost
                [parsed "a" "01/15/2024" "Grocery Store" "1,200.00"] emptyWorld
              = ({| store := ∅; drawn := 0 |}, inl (InvalidType "CAD$" "1,200.00")))
    by (vm_compute; reflexivity).
  split; [exact H|].
  destruct (validateRows_errors _ _ _ _ _ H)
    as [[He _]|[[He _]|[[He _]|[[Htype _]|He]]]]; try discriminate He.
  exact Htype.
Defined.

(** The header gate is exact on the keys it looks at: an import of a
    non-empty batch ends in "Invalid headers" if and only if the keys of
    its first row, [id] and [__parsed_extra] left out, differ from the
    required header in name or in order; the world is then untouched. *)
Theorem header_gate_exact (h : Host) (row0 : JSObject.t) (rest : list JSObject.t) (w : World) :
  (validateRows h (row0 :: rest) w).2 = inl InvalidHeaders
  <-> headerKeys row0 <> map colName REQUIRED_HEADERS.
Proof.
  split.
  - intros Herr Heq. apply every_header_eq in Heq.
    unfold validateRows in Herr. rewrite <- negb_andb, Heq in Herr. cbn [negb] in Herr.
    unfold bind at 1 in Herr.
    destruct (validateAll h (row0 :: rest) w) as [w1 [e1|v]] eqn:Hv; cbn [snd] in Herr.
    + injection Herr as ->.
      destruct (validateAll_error _ _ _ _ _ Hv) as [He|(c & x & He & _)]; discriminate He.
    + unfold bind in Herr.
      destruct (storeAll v w1) as [w2 [e2|[]]] eqn:Hst; cbn [snd] in Herr; [|discriminate].
      injection Herr as ->.
      destruct (storeAll_error _ _ _ _ Hst) as [He _]. discriminate He.
  - intros Hne. rewrite (header_gate h row0 rest w Hne). reflexivity.
Qed.

(** ** What a successful import leaves behind *)

Lemma validateAll_sanitized (h : Host) (rows : list JSObject.t) :
  forall w w' validated,
    validateAll h rows w = (w', inr validated) ->
    Forall2 (fun row s => sanitizeRow h (cleanFields (row_id s) row) = inr s
                          /\ checkColumns h s REQUIRED_HEADERS = inr tt)
            rows validated.
Proof.
  induction rows as [|row rest IH]; intros w w' validated Hv.
  - cbn in Hv. injection Hv as <- <-. constructor.
  - apply validateAll_inv in Hv as (w1 & i & s & tl & _ & Hs & Hrest & ->).
    constructor; [|exact (IH _ _ _ Hrest)].
    rewrite (sanitizeAndCheck_id _ _ _ Hs). cbn [row_id cleanFields].
    unfold sanitizeAndCheck in Hs.
    destruct (sanitizeRow h (cleanFields i row)) as [e|s'] eqn:Hsan; [discriminate|].
    destruct (checkColumns h s' REQUIRED_HEADERS) as [e|[]] eqn:Hc; [discriminate|].
    injection Hs as <-. auto.
Qed.

Lemma validateRows_inr (h : Host) (rows : list JSObject.t) (w w' : World)
    (validated : list ParsedRow) :
  validateRows h rows w = (w', inr validated) ->
  exists w1, validateAll h rows w = (w1, inr validated)
             /\ storeAll validated w1 = (w', inr tt).
Proof.
  unfold validateRows. destruct rows as [|row0 rest]; [discriminate|].
  destruct (negb _ || negb _); [discriminate|].
  unfold bind at 1.
  destruct (validateAll h (row0 :: rest) w) as [w1 [e|v]]; [discriminate|].
  unfold bind. destruct (storeAll v w1) as [w2 [e|[]]] eqn:Hst; [discriminate|].
  intros [= <- <-]. eauto.
Qed.

(** After a successful import, the returned rows are the rows of the
    batch in order, each sanitized and passing every column rule; their
    identifiers are pairwise distinct and were not in the store before;
    each of them is now stored under its identifier; every other key is
    as before, and the count has grown by the size of the batch. *)
Theorem validateRows_success (h : Host) (rows : list JSObject.t) (w w' : World)
    (validated : list ParsedRow) :
  validateRows h rows w = (w', inr validated) ->
  Forall2 (fun row s => sanitizeRow h (cleanFields (row_id s) row) = inr s
                        /\ checkColumns h s REQUIRED_HEADERS = inr tt)
          rows validated
  /\ NoDup (map row_id validated)
  /\ (forall s, s ∈ validated ->
        store w !! row_id s = None
        /\ store w' !! row_id s = Some (convertToDBFormat s))
  /\ (forall k, k ∉ map row_id validated -> store w' !! k = store w !! k)
  /\ (getTransactionCount w').2 = inr (size (store w) + length rows)%nat.
Proof.
  intros (w1 & Hv & Hst)%validateRows_inr.
  pose proof (validateAll_sanitized _ _ _ _ _ Hv) as Hrows.
  pose proof (validateAll_store h rows w) as Hs. rewrite Hv in Hs. cbn [fst] in Hs.
  apply storeAll_as_addAll in Hst as (s' & Hadd & ->).
  apply addAll_Some in Hadd as (Hnd & Hfree & Hin & Hout & Hsize).
  rewrite Hs in *. cbn [store with_store getTransactionCount snd].
  split; [exact Hrows|]. split; [exact Hnd|]. split; [auto|]. split; [exact Hout|].
  rewrite Hsize, (Forall2_length _ _ _ Hrows). reflexivity.
Qed.

Lemma validateRows_success_witness :
  validateRows utcHost [parsed "a" "01/15/2024" "Grocery Store" "-54.32"] emptyWorld
  = ({| store := {[ "a" := convertToDBFormat groceries ]}; drawn := 0 |}, inr [groceries])
  /\ (getTransactionCount
        {| store := {[ "a" := convertToDBFormat groceries ]}; drawn := 0 |}).2
     = inr (size (store emptyWorld) + 1)%nat.
Proof.
  assert (H : validateRows utcHost
                [parsed "a" "01/15/2024" "Grocery Store" "-54.32"] emptyWorld
              = ({| store := {[ "a" := convertToDBFormat groceries ]}; drawn := 0 |},
                 inr [groceries])) by (vm_compute; reflexivity).
  split; [exact H|].
  exact (proj2 (proj2 (proj2 (proj2 (validateRows_success _ _ _ _ _ H))))).
Defined.

(** ** What a storage failure leaves behind *)

(** When an import ends in "Failed to store transaction", every row of
    the batch had passed validation; the rows before the one whose add
    failed are in the store, under their identifiers, the count has grown
    by their number, the identifier of the failing row is in the store,
    and every other key is as before. *)
Theorem validateRows_store_failure (h : Host) (rows : list JSObject.t) (w w' : World)
    (cause : JSError) :
  validateRows h rows w = (w', inl (FailedToStore cause)) ->
  exists w1 validated stored failed rest,
    validateAll h rows w = (w1, inr validated)
    /\ validated = (stored ++ failed :: rest)%list
    /\ (forall s, s ∈ stored -> store w' !! row_id s = Some (convertToDBFormat s))
    /\ (forall k, k ∉ map row_id stored -> store w' !! k = store w !! k)
    /\ is_Some (store w' !! row_id failed)
    /\ (getTransactionCount w').2 = inr (size (store w) + length stored)%nat.
Proof.
  unfold validateRows. destruct rows as [|row0 rest]; [discriminate|].
  destruct (negb _ || negb _); [discriminate|].
  pose proof (validateAll_store h (row0 :: rest) w) as Hs.
  unfold bind at 1.
  destruct (validateAll h (row0 :: rest) w) as [w1 [e|v]] eqn:Hv; cbn [fst] in Hs.
  - intros [= _ He]. subst e.
    destruct (validateAll_error _ _ _ _ _ Hv) as [He|(c & x & He & _)]; discriminate He.
  - unfold bind. destruct (storeAll v w1) as [w2 [e|[]]] eqn:Hst; [|discriminate].
    intros [= <- _].
    apply storeAll_error in Hst as (_ & stored & failed & tl & -> & Hstored & Hfailed).
    apply storeAll_as_addAll in Hstored as (s' & Hadd & ->).
    apply addAll_Some in Hadd as (_ & _ & Hin & Hout & Hsize).
    rewrite Hs in *. cbn [store with_store getTransactionCount snd] in *.
    exists w1, (stored ++ failed :: tl)%list, stored, failed, tl.
    rewrite Hsize. auto 10.
Qed.

Lemma validateRows_store_failure_witness :
  validateRows utcHost duplicateBatch emptyWorld
  = ({| store := {[ "a" := convertToDBFormat groceries ]}; drawn := 0 |},
     inl (FailedToStore ConstraintError))
  /\ exists w1 validated stored failed rest,
       validateAll utcHost duplicateBatch emptyWorld = (w1, inr validated)
       /\ validated = (stored ++ failed :: rest)%list
       /\ (forall s, s ∈ stored ->
             store {| store := {[ "a" := convertToDBFormat groceries ]}; drawn := 0 |}
               !! row_id s = Some (convertToDBFormat s))
       /\ (forall k, k ∉ map row_id stored ->
             store {| store := {[ "a" := convertToDBFormat groceries ]}; drawn := 0 |} !! k
             = store emptyWorld !! k)
       /\ is_Some (store {| store := {[ "a" := convertToDBFormat groceries ]}; drawn := 0 |}
                     !! row_id failed)
       /\ (getTransactionCount
             {| store := {[ "a" := convertToDBFormat groceries ]}; drawn := 0 |}).2
          = inr (size (store emptyWorld) + length stored)%nat.
Proof.
  assert (H : validateRows utcHost duplicateBatch emptyWorld
              = ({| store := {[ "a" := convertToDBFormat groceries ]}; drawn := 0 |},
                 inl (FailedToStore ConstraintError))) by (vm_compute; reflexivity).
  split; [exact H|]. exact (validateRows_store_failure _ _ _ _ _ H).
Defined.

(** * The decoder *)

Lemma get_None_keys (k : string) (o : JSObject.t) :
  JSObject.get k o = None <-> k ∉ JSObject.keys o.
Proof.
  unfold JSObject.keys. induction o as [|[k1 v1] r IH]; cbn [JSObject.get map fst].
  - split; [intros _ H; inversion H|reflexivity].
  - rewrite not_elem_of_cons, <- IH.
    destruct (String.eqb_spec k1 k) as [->|Hne]; split.
    + discriminate.
    + intros [Hk _]. congruence.
    + intros Hr. split; [congruence|exact Hr].
    + intros [_ Hr]. exact Hr.
Qed.

Lemma get_replace_eq (k v : string) (o : JSObject.t) :
  JSObject.get k o <> None -> JSObject.get k (JSObject.replace k v o) = Some v.
Proof.
  induction o as [|[k1 v1] r IH]; cbn [JSObject.get JSObject.replace]; [congruence|].
  destruct (String.eqb_spec k1 k) as [->|Hne]; cbn [JSObject.get].
  - rewrite String.eqb_refl. reflexivity.
  - intros Hr. destruct (String.eqb_spec k1 k); [contradiction|]. exact (IH Hr).
Qed.

Lemma get_insert_index_eq (i : Z) (k v : string) (o : JSObject.t) :
  JSObject.get k o = None -> JSObject.get k (JSObject.insert_index i k v o) = Some v.
Proof.
  induction o as [|[k1 v1] r IH]; cbn [JSObject.get JSObject.insert_index].
  - rewrite String.eqb_refl. reflexivity.
  - destruct (String.eqb_spec k1 k) as [->|Hne]; [discriminate|]. intros Hr.
    destruct (JSObject.array_index k1) as [j|]; [destruct (j <? i)|];
      cbn [JSObject.get]; rewrite ?String.eqb_refl; try reflexivity.
    destruct (String.eqb_spec k1 k); [contradiction|]. exact (IH Hr).
Qed.

Lemma get_app_eq (k v : string) (o : JSObject.t) :
  JSObject.get k o = None -> JSObject.get k (o ++ [(k, v)])%list = Some v.
Proof.
  induction o as [|[k1 v1] r IH]; cbn [app JSObject.get].
  - rewrite String.eqb_refl. reflexivity.
  - destruct (String.eqb k1 k); [discriminate|]. exact IH.
Qed.

(** Reading a property that was just written gives the value written. *)
Lemma get_set_eq (k v : string) (o : JSObject.t) :
  JSObject.get k (JSObject.set k v o) = Some v.
Proof.
  unfold JSObject.set. destruct (JSObject.get k o) eqn:Hget.
  - apply get_replace_eq. congruence.
  - destruct (JSObject.array_index k); [apply get_insert_index_eq|apply get_app_eq]; exact Hget.
Qed.

(** The properties of [{...dst, ...src}]: those of [src], then those of
    [dst] that [src] does not have. *)
Lemma get_spread (k : string) (src : JSObject.t) :
  NoDup (JSObject.keys src) ->
  forall dst,
    JSObject.get k (JSObject.spread src dst)
    = match JSObject.get k src with
      | Some v => Some v
      | None => JSObject.get k dst
      end.
Proof.
  unfold JSObject.spread.
  induction src as [|[k1 v1] r IH]; intros Hnd dst; [reflexivity|].
  cbn [JSObject.keys map fst] in Hnd. apply NoDup_cons in Hnd as [Hk1 Hnd].
  cbn [fold_left fst snd JSObject.get]. rewrite (IH Hnd).
  destruct (String.eqb_spec k1 k) as [->|Hne].
  - apply get_None_keys in Hk1. rewrite Hk1. apply get_set_eq.
  - destruct (JSObject.get k r); [reflexivity|]. apply get_set_ne, Hne.
Qed.

Lemma keys_set_new (k v : string) (o : JSObject.t) :
  JSObject.get k o = None -> JSObject.array_index k = None ->
  JSObject.keys (JSObject.set k v o) = (JSObject.keys o ++ [k])%list.
Proof.
  intros Hget Hidx. unfold JSObject.set, JSObject.keys. rewrite Hget, Hidx.
  rewrite map_app. reflexivity.
Qed.

(** Spreading a record without array-index keys onto an object that has
    none of its keys appends its keys, in order. *)
Lemma keys_spread_plain (src : JSObject.t) :
  NoDup (JSObject.keys src) ->
  Forall (fun k => JSObject.array_index k = None) (JSObject.keys src) ->
  forall dst,
    (forall k, k ∈ JSObject.keys src -> k ∉ JSObject.keys dst) ->
    JSObject.keys (JSObject.spread src dst) = (JSObject.keys dst ++ JSObject.keys src)%list.
Proof.
  unfold JSObject.spread.
  induction src as [|[k1 v1] r IH]; intros Hnd Hplain dst Hfresh.
  - cbn. rewrite app_nil_r. reflexivity.
  - cbn [JSObject.keys map fst] in Hnd, Hplain.
    apply NoDup_cons in Hnd as [Hk1 Hnd]. apply Forall_cons in Hplain as [Hp1 Hplain].
    assert (Hget : JSObject.get k1 dst = None).
    { apply get_None_keys, Hfresh. cbn. apply list_elem_of_here. }
    cbn [fold_left fst snd]. rewrite (IH Hnd Hplain).
    + rewrite (keys_set_new _ _ _ Hget Hp1). cbn [JSObject.keys map fst].
      rewrite <- app_assoc. reflexivity.
    + intros k Hk. rewrite (keys_set_new _ _ _ Hget Hp1).
      rewrite elem_of_app, list_elem_of_singleton. intros [Hd| ->].
      * apply (Hfresh k); [cbn; apply list_elem_of_further, Hk|exact Hd].
      * exact (Hk1 Hk).
Qed.

Lemma spread_id_get (record : JSObject.t) (i k : string) :
  NoDup (JSObject.keys record) -> k <> "id" ->
  JSObject.get k (JSObject.spread record [("id", i)]) = JSObject.get k record.
Proof.
  intros Hnd Hk. rewrite (get_spread k record Hnd).
  destruct (JSObject.get k record); [reflexivity|].
  cbn [JSObject.get]. destruct (String.eqb_spec "id" k); [congruence|reflexivity].
Qed.

Lemma parseCSV_cleanFields (h : Host) (data : list JSObject.t) :
  forall w,
    Forall (fun record => NoDup (JSObject.keys record)) data ->
    exists w' rows,
      parseCSV h data w = (w', inr rows)
      /\ store w' = store w
      /\ Forall2 (fun record row => forall i, cleanFields i row = cleanFields i record)
                 data rows.
Proof.
  induction data as [|record rest IH]; intros w Hnd.
  - exists w, []. split; [reflexivity|]. split; [reflexivity|constructor].
  - apply Forall_cons in Hnd as [Hrec Hrest].
    destruct (IH {| store := store w; drawn := S (drawn w) |} Hrest)
      as (w' & rows & Hrows & Hs & Hcols).
    exists w', (JSObject.spread record [("id", nanoid_at h (drawn w))] :: rows).
    split; [|split; [exact Hs|]].
    + cbn [parseCSV]. unfold bind at 1, nanoid at 1.
      unfold bind at 1. rewrite Hrows. reflexivity.
    + constructor; [|exact Hcols].
      intros i. unfold cleanFields.
      rewrite !(spread_id_get record _ _ Hrec) by discriminate. reflexivity.
Qed.

(** The decoder changes nothing but the identifier: for every decoded
    record (an object has each key once), the row it gives has the same
    value as the record under every key other than [id], so validation
    sees the fields of the file.  One identifier is drawn per record and
    the store is not touched. *)
Theorem parseCSV_keeps_columns (h : Host) (data : list JSObject.t) (w : World) :
  Forall (fun record => NoDup (JSObject.keys record)) data ->
  exists rows,
    parseCSV h data w = ({| store := store w; drawn := drawn w + length data |}, inr rows)
    /\ Forall2 (fun record row =>
                  (forall k, k <> "id" -> JSObject.get k row = JSObject.get k record)
                  /\ forall i, cleanFields i row = cleanFields i record)
               data rows.
Proof.
  revert w. induction data as [|record rest IH]; intros w Hnd.
  - exists []. split; [|constructor].
    cbn. rewrite Nat.add_0_r. destruct w; reflexivity.
  - apply Forall_cons in Hnd as [Hrec Hrest].
    destruct (IH {| store := store w; drawn := S (drawn w) |} Hrest) as (rows & Hrows & Hcols).
    exists (JSObject.spread record [("id", nanoid_at h (drawn w))] :: rows). split.
    + cbn [parseCSV]. unfold bind at 1, nanoid at 1.
      unfold bind at 1. rewrite Hrows. cbn [store drawn length ret].
      rewrite Nat.add_succ_r. reflexivity.
    + constructor; [|exact Hcols].
      assert (Hget : forall k, k <> "id" ->
                JSObject.get k (JSObject.spread record [("id", nanoid_at h (drawn w))])
                = JSObject.get k record).
      { intros k Hk. exact (spread_id_get record _ k Hrec Hk). }
      split; [exact Hget|].
      intros i. unfold cleanFields. rewrite !Hget by discriminate. reflexivity.
Qed.

Lemma parseCSV_keeps_columns_witness :
  Forall (fun r => NoDup (JSObject.keys r)) [record "01/15/2024" "Grocery Store" "-54.32"]
  /\ exists rows,
       parseCSV utcHost [record "01/15/2024" "Grocery Store" "-54.32"] emptyWorld
       = ({| store := store emptyWorld; drawn := drawn emptyWorld + 1 |}, inr rows)
       /\ Forall2 (fun record row =>
                     (forall k, k <> "id" -> JSObject.get k row = JSObject.get k record)
                     /\ forall i, cleanFields i row = cleanFields i record)
                  [record "01/15/2024" "Grocery Store" "-54.32"] rows.
Proof.
  assert (H : Forall (fun r => NoDup (JSObject.keys r))
                     [record "01/15/2024" "Grocery Store" "-54.32"]).
  { constructor; [|constructor]. cbn. apply NoDup_ListNoDup.
    repeat (constructor; [cbn; intuition discriminate|]). constructor. }
  split; [exact H|].
  exact (parseCSV_keeps_columns utcHost _ emptyWorld H).
Defined.

(** ** The header the gate sees *)

Lemma parseCSV_head (h : Host) (record : JSObject.t) (rest : list JSObject.t) (w : World) :
  exists w' rows,
    parseCSV h (record :: rest) w
    = (w', inr (JSObject.spread record [("id", nanoid_at h (drawn w))] :: rows))
    /\ store w' = store w.
Proof.
  destruct (parseCSV_spec h rest {| store := store w; drawn := S (drawn w) |})
    as (rows & Hrows & _).
  eexists _, rows. split.
  - cbn [parseCSV]. unfold bind at 1, nanoid at 1.
    unfold bind at 1. rewrite Hrows. reflexivity.
  - reflexivity.
Qed.

(** For a file whose decoded records have the keys of its header, once
    each, with no header field named [id] or [__parsed_extra] and none
    that is an array index, the import is rejected with "Invalid headers"
    whenever the header is not exactly the required one, and the store is
    not touched. *)
Theorem handleParse_header_gate (h : Host) (record0 : JSObject.t)
    (rest : list JSObject.t) (w : World) :
  NoDup (JSObject.keys record0) ->
  Forall (fun k => JSObject.array_index k = None /\ k <> "id" /\ k <> "__parsed_extra")
         (JSObject.keys record0) ->
  JSObject.keys record0 <> map colName REQUIRED_HEADERS ->
  exists w',
    handleParse h (record0 :: rest) w = (w', inl InvalidHeaders)
    /\ store w' = store w.
Proof.
  intros Hnd Hplain Hne.
  destruct (parseCSV_head h record0 rest w) as (w' & rows & Hparse & Hstore).
  exists w'. split; [|exact Hstore].
  unfold handleParse. rewrite (bind_inr _ _ _ _ _ Hparse).
  apply header_gate.
    unfold headerKeys. rewrite keys_spread_plain; [| exact Hnd | |].
    + assert (Hhead : forall (x : string) (l : list string),
                List.filter
                  (fun k => negb (String.eqb k "id") && negb (String.eqb k "__parsed_extra"))
                  (JSObject.keys [("id", x)] ++ l)%list
                = List.filter
                    (fun k => negb (String.eqb k "id") && negb (String.eqb k "__parsed_extra"))
                    l) by reflexivity.
      rewrite Hhead.
      assert (Hfilter : List.filter
                (fun k => negb (String.eqb k "id") && negb (String.eqb k "__parsed_extra"))
                (JSObject.keys record0) = JSObject.keys record0).
      { clear -Hplain. induction Hplain as [|k ks (_ & Hid & Hextra) _ IH]; [reflexivity|].
        cbn [List.filter].
        apply String.eqb_neq in Hid, Hextra. rewrite Hid, Hextra, IH. reflexivity. }
      rewrite Hfilter. exact Hne.
    + eapply Forall_impl; [exact Hplain|]. intros k (Hk & _). exact Hk.
    + intros k Hk. rewrite Forall_forall in Hplain.
      destruct (Hplain k Hk) as (_ & Hid & _).
      cbn. rewrite list_elem_of_singleton. exact Hid.
Qed.

Lemma handleParse_header_gate_witness :
  let swapped : JSObject.t :=
    [("Account Type", "Chequing"); ("Account Number", "12345");
     ("Transaction Date", "01/15/2024"); ("Cheque Number", "");
     ("Description 1", "Grocery Store"); ("Description 2", "");
     ("USD$", ""); ("CAD$", "-54.32")] in
  exists w',
    handleParse utcHost [swapped] oneRecordWorld = (w', inl InvalidHeaders)
    /\ store w' = store oneRecordWorld.
Proof.
  intros swapped.
  apply (handleParse_header_gate utcHost swapped [] oneRecordWorld).
  - cbn. apply NoDup_ListNoDup.
    repeat (constructor; [cbn; intuition discriminate|]). constructor.
  - cbn. repeat (constructor; [split; [vm_compute; reflexivity|split; discriminate]|]).
    constructor.
  - discriminate.
Defined.

(** * The header check by [JSON.stringify] *)

Example stringify_escapes :
  JSON_stringify ["a"; String dq "b\"; "c,d"]
  = "[" +:+ String dq "a" +:+ String dq "," +:+ String dq "\" +:+ String dq "b\\"
    +:+ String dq "," +:+ String dq "c,d" +:+ String dq "]".
Proof. vm_compute. reflexivity. Qed.

Lemma unescape_escape_char (c : ascii) (rest : string) :
  unescape (escape_char c +:+ rest) = unescape_cons c (unescape rest).
Proof.
  destruct c as [[] [] [] [] [] [] [] []]; reflexivity.
Qed.

Lemma append_assoc (a b c : string) : (a +:+ b) +:+ c = a +:+ (b +:+ c).
Proof.
  induction a as [|x a IH]; [reflexivity|].
  rewrite !append_cons, IH. reflexivity.
Qed.

(** Reading back an escaped string gives the string and what follows
    its closing quote. *)
Lemma unescape_escape (s rest : string) :
  unescape (escape s +:+ String dq rest) = Some (s, rest).
Proof.
  induction s as [|c r IH]; [reflexivity|].
  cbn [escape]. rewrite append_assoc, unescape_escape_char, IH. reflexivity.
Qed.

(** The quoted items of an array, from the second one on, and the
    closing bracket. *)
Lemma stringify_cons (x : string) (l : list string) :
  join_comma (map QuoteJSONString (x :: l)) +:+ "]"
  = String dq (escape x +:+ String dq
      (match l with
       | [] => "]"
       | _ => "," +:+ (join_comma (map QuoteJSONString l) +:+ "]")
       end)).
Proof.
  destruct l as [|y l]; cbn [map join_comma]; unfold QuoteJSONString at 1.
  - rewrite append_cons, append_assoc. reflexivity.
  - rewrite append_assoc, append_cons, append_assoc, append_cons. reflexivity.
Qed.

Lemma join_comma_injective (l1 : list string) :
  forall l2, l1 <> [] -> l2 <> [] ->
    join_comma (map QuoteJSONString l1) +:+ "]"
    = join_comma (map QuoteJSONString l2) +:+ "]" ->
    l1 = l2.
Proof.
  induction l1 as [|x xs IH]; intros [|y ys] H1 H2; try congruence.
  rewrite !stringify_cons. intros [= Heq].
  apply (f_equal unescape) in Heq. rewrite !unescape_escape in Heq.
  injection Heq as -> Htail. f_equal.
  destruct xs as [|x' xs], ys as [|y' ys]; try discriminate Htail; [reflexivity|].
  injection Htail as Htail. apply IH; [discriminate|discriminate|exact Htail].
Qed.

(** [JSON.stringify] tells any two arrays of strings apart. *)
Lemma JSON_stringify_injective (l1 l2 : list string) :
  JSON_stringify l1 = JSON_stringify l2 -> l1 = l2.
Proof.
  unfold JSON_stringify. rewrite !append_cons. intros [= Heq].
  change ("" +:+ ?x) with x in Heq.
  destruct l1 as [|x xs], l2 as [|y ys]; [reflexivity| | |].
  - rewrite stringify_cons in Heq. discriminate Heq.
  - rewrite stringify_cons in Heq. discriminate Heq.
  - apply join_comma_injective; [discriminate|discriminate|exact Heq].
Qed.

(** [validateHeaders] accepts a header list if and only if it is the
    required header: the eight names, in order, nothing more. *)
Theorem validateHeaders_exact (headers : list string) :
  validateHeaders headers = true <-> headers = map colName REQUIRED_HEADERS.
Proof.
  unfold validateHeaders. rewrite String.eqb_eq. split.
  - apply JSON_stringify_injective.
  - intros ->. reflexivity.
Qed.

(** * Pages of the table *)

Lemma paginatedTransactions_page {A} (p n : Z) (l : list A) :
  1 <= p -> 0 < n ->
  paginatedTransactions p n l
  = take (Z.to_nat n) (drop (Z.to_nat ((p - 1) * n)) l).
Proof.
  intros Hp Hn. unfold paginatedTransactions, slice. cbv zeta.
  set (start := (p - 1) * n). set (len := Z.of_nat (length l)).
  assert (0 <= start) by (unfold start; nia).
  destruct (Z.ltb_spec start 0) as [?|_]; [lia|].
  destruct (Z.ltb_spec (start + n) 0) as [?|_]; [lia|].
  destruct (Z.le_gt_cases len start) as [Hout|Hin].
  - rewrite (Z.min_r start len) by lia. rewrite (Z.min_r (start + n) len) by lia.
    rewrite Z.sub_diag. cbn [Z.to_nat take].
    rewrite (drop_ge l (Z.to_nat start)) by (unfold len in Hout; lia).
    destruct (Z.to_nat n); reflexivity.
  - rewrite (Z.min_l start len) by lia.
    destruct (Z.le_gt_cases (start + n) len) as [Hfull|Hshort].
    + rewrite (Z.min_l (start + n) len) by lia. do 2 f_equal. lia.
    + rewrite (Z.min_r (start + n) len) by lia.
      rewrite !take_ge; [reflexivity| |]; rewrite length_drop; unfold len in *; lia.
Qed.

(** The pages of the table are consecutive slices: for a page size
    [n > 0], pages 1 to [k] laid end to end are the first [k * n] rows.
    So no row is shown twice or skipped, and once [k * n] reaches the
    number of rows the pages hold them all, in order. *)
Theorem pages_partition {A} (n : Z) (k : nat) (l : list A) :
  0 < n ->
  concat (map (fun p => paginatedTransactions (Z.of_nat p) n l) (seq 1 k))
  = take (k * Z.to_nat n) l
  /\ ((length l <= k * Z.to_nat n)%nat ->
      concat (map (fun p => paginatedTransactions (Z.of_nat p) n l) (seq 1 k)) = l).
Proof.
  intros Hn.
  assert (Hpages : concat (map (fun p => paginatedTransactions (Z.of_nat p) n l) (seq 1 k))
                   = take (k * Z.to_nat n) l).
  { induction k as [|k IH]; [reflexivity|].
    rewrite seq_S, map_app, concat_app, IH. cbn [map concat].
    rewrite app_nil_r, paginatedTransactions_page by lia.
    replace (Z.to_nat ((Z.of_nat (1 + k) - 1) * n)) with (k * Z.to_nat n)%nat by nia.
    rewrite take_take_drop. f_equal. lia. }
  split; [exact Hpages|].
  intros Hall. rewrite Hpages. apply take_ge, Hall.
Qed.

Lemma pages_partition_witness :
  0 < 2
  /\ concat (map (fun p => paginatedTransactions (Z.of_nat p) 2 ["a"; "b"; "c"; "d"; "e"])
                 (seq 1 3))
     = ["a"; "b"; "c"; "d"; "e"].
Proof.
  assert (H : 0 < 2) by lia. split; [exact H|].
  apply (pages_partition 2 3 ["a"; "b"; "c"; "d"; "e"] H). cbn. lia.
Defined.

(** * From the file to the store *)

Lemma field_cleanFields (i : string) (row : JSObject.t) (col : Column) :
  field (cleanFields i row) col = or_empty (JSObject.get (colName col) row).
Proof. destruct col; reflexivity. Qed.

(** After a successful upload every data line of the file is in the
    store, under the identifier of its row: the stored account type,
    account number, cheque number, descriptions and amounts are the values
    the line has under the columns of those names, a missing one counting
    as empty, with the white space around them removed; and the count has
    grown by the number of data lines. *)
Theorem handleParse_success (h : Host) (data : list JSObject.t) (w w' : World)
    (validated : list ParsedRow) :
  Forall (fun record => NoDup (JSObject.keys record)) data ->
  handleParse h data w = (w', inr validated) ->
  Forall2 (fun record s =>
             exists r,
               store w' !! row_id s = Some r
               /\ db_id r = row_id s
               /\ accountType r = trim (default "" (JSObject.get "Account Type" record))
               /\ accountNumber r = trim (default "" (JSObject.get "Account Number" record))
               /\ chequeNumber r = trim (default "" (JSObject.get "Cheque Number" record))
               /\ description1 r = trim (default "" (JSObject.get "Description 1" record))
               /\ description2 r = trim (default "" (JSObject.get "Description 2" record))
               /\ cadAmount r = trim (default "" (JSObject.get "CAD$" record))
               /\ usdAmount r = trim (default "" (JSObject.get "USD$" record)))
          data validated
  /\ (getTransactionCount w').2 = inr (size (store w) + length data)%nat.
Proof.
  intros Hnd. unfold handleParse.
  destruct (parseCSV_cleanFields h data w Hnd) as (w0 & rows & Hparse & Hs0 & Hcols).
  rewrite (bind_inr _ _ _ _ _ Hparse).
  intros (w1 & Hv & Hst)%validateRows_inr.
  pose proof (validateAll_sanitized _ _ _ _ _ Hv) as Hrows.
  pose proof (validateAll_store h rows w0) as Hs1. rewrite Hv in Hs1. cbn [fst] in Hs1.
  apply storeAll_as_addAll in Hst as (s' & Hadd & ->).
  apply addAll_Some in Hadd as (_ & _ & Hin & _ & Hsize).
  cbn [store with_store getTransactionCount snd].
  split.
  - clear Hparse Hv Hsize Hnd. revert validated Hrows Hin.
    induction Hcols as [|record row data rows Hclean _ IH]; intros validated Hrows Hin.
    + inversion Hrows. constructor.
    + inversion Hrows as [|? s ? tl (Hs & _) Htl]; subst.
      constructor.
      * exists (convertToDBFormat s).
        split; [apply Hin, list_elem_of_here|]. split; [reflexivity|].
        pose proof (sanitizeRow_fields _ _ _ Hs) as Hfields.
        rewrite Hclean in Hfields.
        assert (Hcol : forall col, col <> ColTransactionDate ->
                  field s col = trim (default "" (JSObject.get (colName col) record))).
        { intros col Hcol. rewrite (Hfields col Hcol), field_cleanFields.
          destruct (JSObject.get (colName col) record); reflexivity. }
        cbn [convertToDBFormat accountType accountNumber chequeNumber description1
             description2 cadAmount usdAmount].
        repeat split.
        -- exact (Hcol ColAccountType ltac:(discriminate)).
        -- exact (Hcol ColAccountNumber ltac:(discriminate)).
        -- exact (Hcol ColChequeNumber ltac:(discriminate)).
        -- exact (Hcol ColDescription1 ltac:(discriminate)).
        -- exact (Hcol ColDescription2 ltac:(discriminate)).
        -- exact (Hcol ColCAD ltac:(discriminate)).
        -- exact (Hcol ColUSD ltac:(discriminate)).
      * apply IH; [exact Htl|]. intros s0 Hs0'. apply Hin, list_elem_of_further, Hs0'.
  - rewrite Hsize, Hs1, Hs0, <- (Forall2_length _ _ _ Hrows), (Forall2_length _ _ _ Hcols).
    reflexivity.
Qed.

Lemma handleParse_success_witness :
  let data := [record " 01/15/2024" "Grocery Store " "-54.32"] in
  let w' := {| store := {[ "id000" := convertToDBFormat (with_id "id000" groceries) ]};
               drawn := 1 |} in
  Forall (fun r => NoDup (JSObject.keys r)) data
  /\ handleParse utcHost data emptyWorld = (w', inr [with_id "id000" groceries])
  /\ Forall2 (fun record s =>
                exists r,
                  store w' !! row_id s = Some r
                  /\ db_id r = row_id s
                  /\ accountType r = trim (default "" (JSObject.get "Account Type" record))
                  /\ accountNumber r = trim (default "" (JSObject.get "Account Number" record))
                  /\ chequeNumber r = trim (default "" (JSObject.get "Cheque Number" record))
                  /\ description1 r = trim (default "" (JSObject.get "Description 1" record))
                  /\ description2 r = trim (default "" (JSObject.get "Description 2" record))
                  /\ cadAmount r = trim (default "" (JSObject.get "CAD$" record))
                  /\ usdAmount r = trim (default "" (JSObject.get "USD$" record)))
             data [with_id "id000" groceries]
  /\ (getTransactionCount w').2 = inr (size (store emptyWorld) + 1)%nat.
Proof.
  intros data w'.
  assert (H1 : Forall (fun r => NoDup (JSObject.keys r)) data).
  { constructor; [|constructor]. cbn. apply NoDup_ListNoDup.
    repeat (constructor; [cbn; intuition discriminate|]). constructor. }
  assert (H2 : handleParse utcHost data emptyWorld = (w', inr [with_id "id000" groceries]))
    by (vm_compute; reflexivity).
  split; [exact H1|]. split; [exact H2|].
  exact (handleParse_success _ _ _ _ _ H1 H2).
Defined.

(** * Dates and time zones *)

Lemma digit_char_is_digit (n : Z) :
  is_digit (ascii_of_N (Z.to_N (48 + n mod 10))) = true.
Proof.
  pose proof (Z.mod_pos_bound n 10 eq_refl) as Hb.
  assert (Hcases : n mod 10 = 0 \/ n mod 10 = 1 \/ n mod 10 = 2 \/ n mod 10 = 3
                   \/ n mod 10 = 4 \/ n mod 10 = 5 \/ n mod 10 = 6 \/ n mod 10 = 7
                   \/ n mod 10 = 8 \/ n mod 10 = 9) by lia.
  repeat destruct Hcases as [->|Hcases]; try rewrite Hcases; reflexivity.
Qed.

Lemma pad_free_of (c : ascii) (w : nat) :
  is_digit c = false -> forall n, free_of c (pad w n) = true.
Proof.
  intros Hc. induction w as [|w IH]; intros n; [reflexivity|].
  cbn [pad]. rewrite free_of_app, IH. cbn [free_of].
  destruct (Ascii.eqb_spec (ascii_of_N (Z.to_N (48 + n mod 10))) c) as [Heq|_];
    [|reflexivity].
  rewrite <- Heq, digit_char_is_digit in Hc. discriminate.
Qed.

Lemma year_string_free_of (c : ascii) (y : Z) :
  is_digit c = false -> Ascii.eqb "-" c = false -> Ascii.eqb "+" c = false ->
  free_of c (year_string y) = true.
Proof.
  intros Hc Hminus Hplus. unfold year_string.
  destruct ((0 <=? y) && (y <=? 9999)); [apply pad_free_of, Hc|].
  rewrite free_of_app, (pad_free_of c) by exact Hc.
  destruct (y <? 0); cbn [free_of]; rewrite ?Hminus, ?Hplus; reflexivity.
Qed.

Local Opaque pad year_string.

Lemma date_of_day_free_of_T (day : Z) : free_of "T" (date_of_day day) = true.
Proof.
  unfold date_of_day. destruct (civil_of_day day) as [[y m] d].
  repeat rewrite free_of_app. rewrite !(pad_free_of "T") by reflexivity.
  rewrite (year_string_free_of "T") by reflexivity. reflexivity.
Qed.

Lemma toISOString_date_part (t : Z) :
  exists time, toISOString (Some t) = Some (date_of_day (t / msPerDay) +:+ String "T" time).
Proof.
  unfold toISOString, date_of_day. destruct (civil_of_day _) as [[y m] d].
  eexists. rewrite !append_assoc. reflexivity.
Qed.

Local Transparent pad year_string.

Lemma split_prefix (sep : ascii) (a b : string) :
  free_of sep a = true -> split sep (a +:+ String sep b) = a :: split sep b.
Proof.
  induction a as [|c a IH]; intros Hfree.
  - change ("" +:+ String sep b) with (String sep b). cbn [split].
    rewrite Ascii.eqb_refl. reflexivity.
  - rewrite append_cons. cbn [free_of split] in *.
    apply andb_prop in Hfree as [Hc Ha]. apply negb_true_iff in Hc.
    rewrite Hc, (IH Ha). reflexivity.
Qed.

Lemma first_split_prefix (sep : ascii) (a b : string) :
  free_of sep a = true -> first (split sep (a +:+ String sep b)) = a.
Proof.
  induction a as [|c a IH]; intros Hfree.
  - change ("" +:+ String sep b) with (String sep b). cbn [split].
    rewrite Ascii.eqb_refl. reflexivity.
  - rewrite append_cons. cbn [free_of split] in *.
    apply andb_prop in Hfree as [Hc Ha]. apply negb_true_iff in Hc. rewrite Hc.
    specialize (IH Ha). destruct (split sep (a +:+ String sep b)) as [|x xs];
      cbn [first List.hd] in *; congruence.
Qed.

(** The date the sanitizer writes is the UTC date of local midnight of
    the day the file names.  West of Greenwich, and in UTC, that is the
    day itself; east of Greenwich it is the day before. *)
Theorem sanitizeRow_day (h : Host) (row s : ParsedRow) :
  sanitizeRow h row = inr s ->
  exists D,
    localDay row = Some D
    /\ (- msPerDay < LocalTZA h (D * msPerDay) <= 0 ->
        Transaction_Date s = date_of_day D)
    /\ (0 < LocalTZA h (D * msPerDay) <= msPerDay ->
        Transaction_Date s = date_of_day (D - 1)).
Proof.
  unfold sanitizeRow. cbv zeta. unfold Date_of_components. cbv zeta.
  change (MakeDay _ _ _) with (localDay row).
  destruct (localDay row) as [D|]; [|discriminate].
  cbn [MakeDate UTC TimeClip]. rewrite Z.add_0_r.
  set (u := D * msPerDay - LocalTZA h (D * msPerDay)).
  destruct (8640000000000000 <? Z.abs u); [discriminate|].
  destruct (toISOString_date_part u) as [time ->].
  intros [= <-]. cbn [Transaction_Date].
  rewrite first_split_prefix by apply date_of_day_free_of_T.
  exists D. split; [reflexivity|].
  assert (Hms : msPerDay = 86400000) by reflexivity.
  split; intros Hoff; f_equal; unfold u.
  - symmetry. apply (Z.div_unique _ _ _ (- LocalTZA h (D * msPerDay))); lia.
  - symmetry. apply (Z.div_unique _ _ _ (msPerDay - LocalTZA h (D * msPerDay))); lia.
Qed.

Lemma sanitizeRow_day_witness :
  sanitizeRow eastHost (cleanFields "a" (record "01/15/2024" "Grocery Store" "-54.32"))
  = inr (with_date "2024-01-14" groceries)
  /\ exists D,
       localDay (cleanFields "a" (record "01/15/2024" "Grocery Store" "-54.32")) = Some D
       /\ (- msPerDay < LocalTZA eastHost (D * msPerDay) <= 0 ->
           Transaction_Date (with_date "2024-01-14" groceries) = date_of_day D)
       /\ (0 < LocalTZA eastHost (D * msPerDay) <= msPerDay ->
           Transaction_Date (with_date "2024-01-14" groceries) = date_of_day (D - 1)).
Proof.
  assert (H : sanitizeRow eastHost
                (cleanFields "a" (record "01/15/2024" "Grocery Store" "-54.32"))
              = inr (with_date "2024-01-14" groceries)) by (vm_compute; reflexivity).
  split; [exact H|]. exact (sanitizeRow_day eastHost _ _ H).
Defined.

(** ** Two-digit years *)

Lemma MakeFullYear_two_digits (n : nat) :
  (n < 100)%nat ->
  MakeFullYear (Number (pad 2 (Z.of_nat n)))
  = MakeFullYear (Number ("19" +:+ pad 2 (Z.of_nat n))).
Proof.
  intros Hn.
  do 100 (destruct n as [|n]; [vm_compute; reflexivity|]). lia.
Qed.

(** A year written with two digits is read as a year of the twentieth
    century: the row with date [m/d/yy] is sanitized exactly as the row
    with date [m/d/19yy], whatever [m] and [d] are. *)
Theorem two_digit_year_is_19xx (h : Host) (row : ParsedRow) (m d : string) (y : Z) :
  0 <= y <= 99 ->
  free_of "/" m = true -> free_of "/" d = true ->
  sanitizeRow h (with_date (m +:+ "/" +:+ d +:+ "/" +:+ pad 2 y) row)
  = sanitizeRow h (with_date (m +:+ "/" +:+ d +:+ "/19" +:+ pad 2 y) row).
Proof.
  intros Hy Hm Hd. unfold sanitizeRow. cbn [Transaction_Date with_date].
  change (m +:+ "/" +:+ d +:+ "/" +:+ pad 2 y)
    with (m +:+ String "/" (d +:+ String "/" (pad 2 y))).
  change (m +:+ "/" +:+ d +:+ "/19" +:+ pad 2 y)
    with (m +:+ String "/" (d +:+ String "/" ("19" +:+ pad 2 y))).
  rewrite !(split_prefix "/" m) by exact Hm.
  rewrite !(split_prefix "/" d) by exact Hd.
  rewrite (split_free_of "/" (pad 2 y)) by (apply pad_free_of; reflexivity).
  assert (Hfree19 : free_of "/" ("19" +:+ pad 2 y) = true).
  { rewrite free_of_app, (pad_free_of "/") by reflexivity. reflexivity. }
  rewrite (split_free_of "/" _ Hfree19).
  cbn [lookup list_lookup]. unfold Date_of_components. cbv zeta.
  cbn [to_number row_id Account_Type Account_Number Cheque_Number Description_1
       Description_2 CAD_amount USD_amount].
  replace y with (Z.of_nat (Z.to_nat y)) by lia.
  rewrite MakeFullYear_two_digits by lia. reflexivity.
Qed.

Lemma two_digit_year_is_19xx_witness :
  0 <= 24 <= 99 /\ free_of "/" "01" = true /\ free_of "/" "15" = true
  /\ sanitizeRow utcHost (with_date ("01" +:+ "/" +:+ "15" +:+ "/" +:+ pad 2 24) groceries)
     = sanitizeRow utcHost (with_date ("01" +:+ "/" +:+ "15" +:+ "/19" +:+ pad 2 24) groceries).
Proof.
  assert (H1 : 0 <= 24 <= 99) by lia.
  assert (H2 : free_of "/" "01" = true) by reflexivity.
  assert (H3 : free_of "/" "15" = true) by reflexivity.
  split; [exact H1|]. split; [exact H2|]. split; [exact H3|].
  exact (two_digit_year_is_19xx utcHost groceries "01" "15" 24 H1 H2 H3).
Defined.

Example two_digit_year_1924 :
  sanitizeRow utcHost (with_date "01/15/24" groceries)
  = inr (with_date "1924-01-15" groceries).
Proof. vm_compute. reflexivity. Qed.

(** * The earlier validator *)

Lemma all_columns_required (col : Column) : col ∈ REQUIRED_HEADERS.
Proof.
  unfold REQUIRED_HEADERS.
  destruct col; repeat first [apply list_elem_of_here | apply list_elem_of_further].
Qed.

Lemma Legacy_checkType_undefined (h : Host) (ty : ColType) (allow_empty : bool) :
  ty <> TDate -> Legacy.checkType h None ty allow_empty = false.
Proof.
  intros Hty. unfold Legacy.checkType. rewrite andb_false_r.
  destruct ty; [reflexivity|reflexivity|contradiction].
Qed.

Lemma Legacy_checkColumns_present (h : Host) (row : JSObject.t) (cols : list Column) :
  Legacy.checkColumns h row cols = inr tt ->
  forall col, col ∈ cols -> col <> ColTransactionDate ->
              exists v, JSObject.get (colName col) row = Some v.
Proof.
  induction cols as [|c rest IH]; intros Hok col Hin Hcol; [inversion Hin|].
  cbn [Legacy.checkColumns] in Hok.
  destruct (Legacy.checkType h (JSObject.get (colName c) row) _ _) eqn:Hcheck;
    [|discriminate].
  apply elem_of_cons in Hin as [->|Hin]; [|exact (IH Hok col Hin Hcol)].
  destruct (JSObject.get (colName c) row) as [v|]; [eauto|].
  rewrite Legacy_checkType_undefined in Hcheck; [discriminate|].
  destruct c; cbn; congruence.
Qed.

Lemma Legacy_fillId_spec (h : Host) (row : JSObject.t) (w : World) :
  exists w' row',
    Legacy.fillId h row w = (w', inr row')
    /\ store w' = store w
    /\ (has_id row -> row' = row /\ w' = w)
    /\ (~ has_id row -> row' = JSObject.set "id" (nanoid_at h (drawn w)) row).
Proof.
  unfold Legacy.fillId, has_id.
  destruct (JSObject.get "id" row) as [[|c i]|] eqn:Hget.
  - eexists _, _. split; [reflexivity|]. split; [reflexivity|]. split.
    + intros (i & [= <-] & Hne). congruence.
    + reflexivity.
  - eexists _, _. split; [reflexivity|]. split; [reflexivity|]. split; [auto|].
    intros Hno. exfalso. apply Hno. eexists. split; [reflexivity|discriminate].
  - eexists _, _. split; [reflexivity|]. split; [reflexivity|]. split.
    + intros (i & Hi & _). discriminate.
    + reflexivity.
Qed.

(** The earlier validator never touches the store, and when it accepts
    a batch it returns the rows as they came, unsanitized: a row that
    carries an identifier is returned as it is, a row without one gets a
    fresh identifier and no other change.  Every returned row has all
    seven columns other than the date: a missing column is not taken for
    an empty one. *)
Theorem Legacy_validateRows_spec (h : Host) (rows : list JSObject.t) (w : World) :
  store (Legacy.validateRows h rows w).1 = store w
  /\ forall w' validated,
       Legacy.validateRows h rows w = (w', inr validated) ->
       Forall2 (fun row row' =>
                  (has_id row -> row' = row)
                  /\ (~ has_id row -> exists n, row' = JSObject.set "id" (nanoid_at h n) row)
                  /\ forall col, col <> ColTransactionDate ->
                       exists v, JSObject.get (colName col) row = Some v)
               rows validated.
Proof.
  assert (Hall : forall rows w,
             store (Legacy.validateAll h rows w).1 = store w
             /\ forall w' validated,
                  Legacy.validateAll h rows w = (w', inr validated) ->
                  Forall2 (fun row row' =>
                     (has_id row -> row' = row)
                     /\ (~ has_id row -> exists n, row' = JSObject.set "id" (nanoid_at h n) row)
                     /\ forall col, col <> ColTransactionDate ->
                          exists v, JSObject.get (colName col) row = Some v)
                    rows validated).
  { clear rows w. induction rows as [|row rest IH]; intros w.
    - split; [reflexivity|]. intros w' validated [= <- <-]. constructor.
    - cbn [Legacy.validateAll]. unfold lift, bind at 1.
      destruct (Legacy.checkColumns h row REQUIRED_HEADERS) as [e|[]] eqn:Hcheck.
      + split; [reflexivity|]. intros ? ? [=].
      + destruct (Legacy_fillId_spec h row w) as (w1 & row' & Hfill & Hs & Hkeep & Hnew).
        unfold bind, ret. rewrite Hfill.
        destruct (IH w1) as [IHs IHv].
        destruct (Legacy.validateAll h rest w1) as [w2 [e|v]] eqn:Hrest; cbn [fst] in *.
        * split; [congruence|]. intros ? ? [=].
        * split; [congruence|]. intros w' validated [= <- <-].
          constructor; [|exact (IHv _ _ eq_refl)].
          split; [intros Hid; exact (proj1 (Hkeep Hid))|].
          split; [intros Hno; eauto|].
          intros col Hcol. apply (Legacy_checkColumns_present h row _ Hcheck col); [|exact Hcol].
          apply all_columns_required. }
  unfold Legacy.validateRows. destruct rows as [|row0 rest].
  - split; [reflexivity|]. intros ? ? [=].
  - destruct (negb _ || negb _).
    + split; [reflexivity|]. intros ? ? [=].
    + apply Hall.
Qed.

Example Legacy_rejects_missing_column :
  Legacy.validateRows utcHost
    [[("id", "a"); ("Account Type", "Chequing"); ("Account Number", "12345");
      ("Transaction Date", "2024-01-15"); ("Cheque Number", ""); ("Description 1", "Rent");
      ("Description 2", ""); ("CAD$", "-900"); ("USD$", "")];
     [("id", "b"); ("Account Type", "Chequing"); ("Account Number", "12345");
      ("Transaction Date", "2024-01-16"); ("Cheque Number", ""); ("Description 1", "Rent")]]
    emptyWorld
  = (emptyWorld, inl (InvalidType "Description 2" "undefined")).
Proof. vm_compute. reflexivity. Qed.
